(** * Admission validator for Longhorn nodes

    A shallow embedding of [webhook/resources/node/validator.go]: the three
    entry points [Create], [Update] and [Delete] of [nodeValidator], the
    helper [isNodeDiskSpecAndStatusSynced], and the properties of the rule
    sets they implement.

    Conventions of the embedding.
    - A Go [map[string]V] is a [gmap string V]; a [range] loop over it visits
      [map_to_list].  Go leaves the iteration order unspecified; every
      property below is about acceptance, rejection, the error category or the
      rule that fired, none of which depends on the order chosen.
    - Go integers ([int], [int64]) are [Z]; the validator only compares them
      with 0, so no wrap-around arises.
    - A function returning [error] is a computation in the monad [M]: it
      records the reads it makes through the datastore and the lines it logs,
      and ends in a [Verdict] when a [return] statement is reached.
    - An error message is kept as the [Reason] constructor of the statement
      that builds it, together with the values formatted into it. *)

From Stdlib Require Import ZArith Lia.
From stdpp Require Import base option list strings gmap fin_maps.

#[local] Set Warnings "-clear-no-such-hyp".

Local Open Scope string_scope.
Local Open Scope list_scope.
Local Open Scope Z_scope.

(** ** Go values *)

(** A Go [error] value.  [datastore.ErrorIsNotFound] tells the two kinds
    apart; [Error()] is the text. *)
Inductive error :=
| NotFoundError (text : string)
| OtherError (text : string).

Definition ErrorIsNotFound (err : error) : bool :=
  match err with
  | NotFoundError _ => true
  | OtherError _ => false
  end.

(** The pair [(value, err)] returned by a fallible Go call. *)
Inductive result (A : Type) :=
| Ok (a : A)
| Err (err : error).
Arguments Ok {A} a.
Arguments Err {A} err.

(** ** Data model (package [longhorn], v1beta2) *)

(** The constants below belong to packages [longhorn] and [types], which are
    declared elsewhere in the repository.  No property proved here depends on
    the literal chosen for any of them. *)

(** Modelled from the spec: [longhorn.DiskTypeFilesystem], the disk type the
    spec calls Filesystem. *)
Definition DiskTypeFilesystem : string := "filesystem".

(** Modelled from the spec: [longhorn.DiskTypeBlock], the disk type the spec
    calls Block. *)
Definition DiskTypeBlock : string := "block".

(** Modelled from the spec: [longhorn.DiskDriverNone], the driver value the
    spec calls None. *)
Definition DiskDriverNone : string := "".

(** Modelled from the spec: [longhorn.ConditionStatusTrue], the condition
    status True. *)
Definition ConditionStatusTrue : string := "True".

(** Modelled from the spec: [longhorn.NodeConditionTypeReady], the type of the
    readiness condition of a node. *)
Definition NodeConditionTypeReady : string := "Ready".

(** Modelled from the spec: [longhorn.NodeConditionReasonKubernetesNodeGone],
    the reason that the underlying compute node is gone. *)
Definition NodeConditionReasonKubernetesNodeGone : string := "KubernetesNodeGone".

(** Modelled from the spec: [longhorn.NodeConditionReasonManagerPodMissing],
    the reason that the manager pod is missing. *)
Definition NodeConditionReasonManagerPodMissing : string := "ManagerPodMissing".

(** Modelled from the spec: [types.SettingNameV2DataEngine], the name of the
    feature flag that enables block-type disks. *)
Definition SettingNameV2DataEngine : string := "v2-data-engine".

(** Modelled from the spec: [types.SettingNameGuaranteedInstanceManagerCPU],
    the name of the guaranteed-CPU-percentage setting. *)
Definition SettingNameGuaranteedInstanceManagerCPU : string :=
  "guaranteed-instance-manager-cpu".

(** Modelled from the spec: [types.DeleteNodeFromLonghorn] and
    [types.GetLonghornLabelKey], which build the key of the annotation that
    marks a node as deleted by Longhorn during uninstalling. *)
Definition DeleteNodeFromLonghorn : string := "delete-node-from-longhorn".
Definition GetLonghornLabelKey (name : string) : string := "longhorn.io/" +:+ name.

(** Modelled from the spec: the finalizer that the control plane puts on its
    own objects. *)
Definition longhornFinalizerKey : string := "longhorn.io".

(** Modelled from the spec: the structs of package [longhorn] are declared
    elsewhere in the repository.  Each record below has the fields of the
    spec's data model that the validator reads, under their Go names
    ([Type'] stands for the field [Type]). *)
Module DiskSpec.
Record t := {
  Type' : string;
  Path : string;
  DiskDriver : string;
  AllowScheduling : bool;
  EvictionRequested : bool;
  StorageReserved : Z;
  Tags : list string
}.
#[global] Instance eq_dec : EqDecision t.
Proof. solve_decision. Defined.
End DiskSpec.

Module DiskStatus.
Record t := {
  StorageScheduled : Z
}.
#[global] Instance eq_dec : EqDecision t.
Proof. solve_decision. Defined.
End DiskStatus.

Module Condition.
Record t := {
  Type' : string;
  Status : string;
  Reason : string
}.
#[global] Instance eq_dec : EqDecision t.
Proof. solve_decision. Defined.
End Condition.

Module NodeSpec.
Record t := {
  Name : string;
  Disks : gmap string DiskSpec.t;
  AllowScheduling : bool;
  EvictionRequested : bool;
  Tags : list string;
  InstanceManagerCPURequest : Z
}.
#[global] Instance eq_dec : EqDecision t.
Proof. solve_decision. Defined.
End NodeSpec.

Module NodeStatus.
Record t := {
  Conditions : list Condition.t;
  DiskStatus : gmap string DiskStatus.t
}.
#[global] Instance eq_dec : EqDecision t.
Proof. solve_decision. Defined.
End NodeStatus.

(** Modelled from the spec: [longhorn.Node], with the object metadata the
    validator looks at, the spec and the status.  A nil [Annotations] map is
    [None]. *)
Module Node.
Record t := {
  Name : string;
  Annotations : option (gmap string string);
  Finalizers : list string;
  DeletionTimestamp : option Z;
  Spec : NodeSpec.t;
  Status : NodeStatus.t
}.
#[global] Instance eq_dec : EqDecision t.
Proof. solve_decision. Defined.

Definition withFinalizers (fs : list string) (n : t) : t :=
  {| Name := Name n; Annotations := Annotations n; Finalizers := fs;
     DeletionTimestamp := DeletionTimestamp n; Spec := Spec n; Status := Status n |}.
End Node.

(** A [runtime.Object] handed to the validator: a node, or anything else
    (kept as its printed form). *)
Inductive Object :=
| NodeObject (node : Node.t)
| OtherObject (printed : string).

(** The Kubernetes node as far as the validator reads it:
    [Status.Allocatable.Cpu().MilliValue()]. *)
Record KubernetesNode := {
  AllocatableCPUMilliValue : Z
}.

(** A [longhorn.Setting], of which only [Value] is read. *)
Record Setting := {
  Value : string
}.

(** Replicas and engines are only counted. *)
Record Replica := { ReplicaName : string }.
Record Engine := { EngineName : string }.

(** ** Collaborators *)

(** The read interface of [datastore.DataStore] that the validator calls. *)
Record DataStore := {
  GetSettingAsBool : string → result bool;
  GetSettingWithAutoFillingRO : string → result Setting;
  GetKubernetesNodeRO : string → result KubernetesNode;
  ListReplicasByNodeRO : string → result (list Replica);
  ListEnginesByNodeRO : string → result (list Engine)
}.

(** Pure functions of packages [util] and [types], defined elsewhere in the
    repository and taken as parameters.  [FormatCPUPercentage request
    allocatable] stands for the floating-point expression
    [fmt.Sprintf("%.0f", math.Round(float64(request)/allocatable*100.0))]. *)
Record Library := {
  ValidateTags : list string → result (list string);
  ValidateCPUReservationValues : string → string → option error;
  FormatCPUPercentage : Z → Z → string
}.

(** Modelled from the spec: [types.GetCondition] is defined in package
    [types].  The spec describes a lookup keyed by condition type that returns a
    zero-value sentinel when the condition is absent. *)
Definition GetCondition (conditions : list Condition.t) (conditionType : string)
  : Condition.t :=
  match List.find (λ c, bool_decide (Condition.Type' c = conditionType)) conditions with
  | Some c => c
  | None => {| Condition.Type' := ""; Condition.Status := ""; Condition.Reason := "" |}
  end.

(** ** Verdicts, events and the validator monad *)

Inductive Category :=
| Invalid     (* werror.NewInvalidError *)
| Forbidden.  (* werror.NewForbiddenError *)

(** One constructor per statement that builds an error message. *)
Inductive Reason :=
| NotALonghornNode (printed : string)
    (* "%v is not a *longhorn.Node" *)
| NegativeCPURequest
    (* "instanceManagerCPURequest should be greater than or equal to 0" *)
| GetSpdkSettingFailed (err : error)
    (* errors.Wrapf(err, "failed to get spdk setting") *)
| DiskTypeNotSupported (name type : string)
    (* "disk %v type %v is not supported since v2 data engine is disabled" *)
| DiskDriverNotSupported (name type : string)
    (* "disk %v type %v is not supported to specify disk driver" *)
| FinalizerCheckFailed (err : error)
    (* errors.Wrap(err, "failed to check if removing longhorn.io finalizer ...") *)
| NodeEvictionNeedsSchedulingDisabled (node : string)
    (* "need to disable scheduling on node %v for node eviction, or ..." *)
| DisksBeingSynced (node : string)
    (* "spec and status of disks on node %v are being syncing and please retry later." *)
| NodeTagsInvalid (err : error)
    (* err.Error() of util.ValidateTags(newNode.Spec.Tags) *)
| GetKubernetesNodeFailed (err : error)
    (* err.Error() of GetKubernetesNodeRO *)
| GetCPUSettingFailed (err : error)
    (* err.Error() of GetSettingWithAutoFillingRO *)
| CPUReservationInvalid (err : error)
    (* err.Error() of types.ValidateCPUReservationValues *)
| SpecNameEmpty
    (* "node name is invalid. You can't have a Spec.Name empty" *)
| DiskEvictionNeedsSchedulingDisabled (diskName : string)
    (* "need to disable scheduling on disk %v for disk eviction, or ..." *)
| StorageReservedNotValid (node name path : string)
    (* "update disk on node %v error: The storageReserved setting of disk %v(%v) is not valid, ..." *)
| DiskTagsInvalid (err : error)
    (* err.Error() of util.ValidateTags(disk.Tags) *)
| BlockDeviceWithoutSPDK (node name path : string)
    (* "update disk on node %v error: The disk %v(%v) is a block device, but the SPDK feature is not enabled" *)
| DeleteDiskNotAllowed (name path : string)
    (* "Delete Disk on node %v error: Please disable the disk %v and remove all replicas and backing images first " *)
| DiskTypeChangeNotAllowed (node name path : string)
    (* "update disk on node %v error: The disk %v(%v) type is not allow to change" *)
| ListReplicasFailed (node : string) (err : error)
    (* "failed to list replicas on node %v: %v" *)
| ListEnginesFailed (node : string) (err : error)
    (* "failed to list engines on node %v: %v" *)
| CouldNotDeleteNode (node status reason : string) (schedulable : bool)
                     (replicas engines : nat).
    (* "could not delete node %v with node ready condition is %v, reason is %v, ..." *)

Record AdmissionError := {
  category : Category;
  reason : Reason
}.

(** What a validator call ends in: [nil], an error, or the run-time panic of
    reading a field through an absent disk status. *)
Inductive Verdict :=
| Accept
| Reject (e : AdmissionError)
| NilDereference.

Definition NewInvalidError (r : Reason) : Verdict :=
  Reject {| category := Invalid; reason := r |}.
Definition NewForbiddenError (r : Reason) : Verdict :=
  Reject {| category := Forbidden; reason := r |}.

Definition rejected (v : Verdict) : Prop := ∃ e, v = Reject e.

Inductive Event :=
| CallGetSettingAsBool (name : string)
| CallGetSettingWithAutoFillingRO (name : string)
| CallGetKubernetesNodeRO (name : string)
| CallListReplicasByNodeRO (node : string)
| CallListEnginesByNodeRO (node : string)
| Warnf (line : string)
| Infof (line : string).

(** A computation has emitted [events] and either has executed a [return]
    statement ([inl]) or goes on with a value ([inr]). *)
Record M (A : Type) := Step {
  events : list Event;
  outcome : Verdict + A
}.
Arguments Step {A} events outcome.
Arguments events {A} m.
Arguments outcome {A} m.

#[export] Instance M_ret : MRet M := λ A a, Step [] (inr a).

#[export] Instance M_bind : MBind M := λ A B f m,
  match outcome m with
  | inl v => Step (events m) (inl v)
  | inr a => Step (events m ++ events (f a)) (outcome (f a))
  end.

(** The Go statement [return v]. *)
Definition return_ {A} (v : Verdict) : M A := Step [] (inl v).

(** [if c { return v }] *)
Definition returnIf (c : bool) (v : Verdict) : M unit :=
  if c then return_ v else mret tt.

Definition emit (e : Event) : M unit := Step [e] (inr tt).

(** A read through the datastore: the call is recorded, its result handed on. *)
Definition read {A} (e : Event) (r : result A) : M (result A) := Step [e] (inr r).

(** [for k, v := range m { body }] *)
Fixpoint forEach {A} (l : list A) (body : A → M unit) : M unit :=
  match l with
  | [] => mret tt
  | x :: l' => body x ;; forEach l' body
  end.

Definition range {V} (m : gmap string V) (body : string → V → M unit) : M unit :=
  forEach (map_to_list m) (λ kv, body kv.1 kv.2).

(** The verdict a validator function returns and the events of the call.  A
    body that runs to its end without a [return] does not occur: each of the
    three functions ends in [return nil]. *)
Definition verdict (m : M Empty_set) : Verdict :=
  match outcome m with
  | inl v => v
  | inr e => match e with end
  end.

(** [node, ok := obj.( *longhorn.Node ); if !ok { return ... }] *)
Definition assertNode (obj : Object) : M Node.t :=
  match obj with
  | NodeObject node => mret node
  | OtherObject printed => return_ (NewInvalidError (NotALonghornNode printed))
  end.

(** ** The finalizer check of package [common] *)

(** What the spec calls a pure finalizer removal: the old object is under
    deletion and carries the longhorn.io finalizer, and the new object is the
    old one with that finalizer dropped and nothing else changed. *)
Definition removesOnlyLonghornFinalizer (oldNode newNode : Node.t) : Prop :=
  is_Some (Node.DeletionTimestamp oldNode) ∧
  longhornFinalizerKey ∈ Node.Finalizers oldNode ∧
  newNode =
    Node.withFinalizers
      (filter (λ f, f ≠ longhornFinalizerKey) (Node.Finalizers oldNode)) oldNode.

#[global] Instance removesOnlyLonghornFinalizer_dec oldNode newNode :
  Decision (removesOnlyLonghornFinalizer oldNode newNode).
Proof. unfold removesOnlyLonghornFinalizer. apply _. Defined.

(** Modelled from the spec: [common.IsRemovingLonghornFinalizer] is defined
    in package [webhook/common].  The spec has it hold when the only semantic
    difference between old and new is the removal of the control plane's own
    finalizer from an object that is being deleted.  On two nodes the
    metadata accessors it relies on cannot fail. *)
Definition IsRemovingLonghornFinalizer (oldNode newNode : Node.t) : result bool :=
  Ok (bool_decide (removesOnlyLonghornFinalizer oldNode newNode)).

(** ** Create *)

Definition createDisk (v2DataEngineEnabled : bool) (name : string) (disk : DiskSpec.t)
  : M unit :=
  (if negb v2DataEngineEnabled then
     returnIf (bool_decide (DiskSpec.Type' disk = DiskTypeBlock))
       (NewInvalidError (DiskTypeNotSupported name (DiskSpec.Type' disk)))
   else mret tt) ;;
  (if bool_decide (DiskSpec.Type' disk ≠ DiskTypeBlock) then
     returnIf (bool_decide (DiskSpec.DiskDriver disk ≠ DiskDriverNone))
       (NewInvalidError (DiskDriverNotSupported name (DiskSpec.Type' disk)))
   else mret tt).

Definition Create (ds : DataStore) (newObj : Object) : M Empty_set :=
  node ← assertNode newObj;
  returnIf (bool_decide (NodeSpec.InstanceManagerCPURequest (Node.Spec node) < 0))
    (NewInvalidError NegativeCPURequest) ;;
  r ← read (CallGetSettingAsBool SettingNameV2DataEngine)
           (GetSettingAsBool ds SettingNameV2DataEngine);
  v2DataEngineEnabled ←
    match r with
    | Err err => return_ (NewInvalidError (GetSpdkSettingFailed err))
    | Ok b => mret b
    end;
  range (NodeSpec.Disks (Node.Spec node)) (createDisk v2DataEngineEnabled) ;;
  return_ Accept.

(** ** Update *)

Definition isNodeDiskSpecAndStatusSynced (node : Node.t) : bool :=
  if bool_decide (size (NodeSpec.Disks (Node.Spec node))
                  ≠ size (NodeStatus.DiskStatus (Node.Status node)))
  then false
  else
    forallb
      (λ kv : string * DiskSpec.t,
         bool_decide (is_Some (NodeStatus.DiskStatus (Node.Status node) !! kv.1)))
      (map_to_list (NodeSpec.Disks (Node.Spec node))).

(** Lines 100-102. *)
Definition validateCPURequest (newNode : Node.t) : M unit :=
  returnIf (bool_decide (NodeSpec.InstanceManagerCPURequest (Node.Spec newNode) < 0))
    (NewInvalidError NegativeCPURequest).

(** Lines 104-109: only a scheduling disabled node can be evicted. *)
Definition validateNodeEviction (oldNode newNode : Node.t) : M unit :=
  returnIf (NodeSpec.EvictionRequested (Node.Spec newNode)
            && NodeSpec.AllowScheduling (Node.Spec newNode))
    (NewInvalidError (NodeEvictionNeedsSchedulingDisabled (Node.Name oldNode))).

(** Lines 111-114: the node controller has synced disk spec and status. *)
Definition validateDiskSync (oldNode : Node.t) : M unit :=
  returnIf (negb (isNodeDiskSpecAndStatusSynced oldNode))
    (NewForbiddenError (DisksBeingSynced (Node.Name oldNode))).

(** Lines 116-120. *)
Definition validateNodeTags (lib : Library) (newNode : Node.t) : M unit :=
  match ValidateTags lib (NodeSpec.Tags (Node.Spec newNode)) with
  | Err err => return_ (NewInvalidError (NodeTagsInvalid err))
  | Ok _ => mret tt
  end.

(** Lines 122-144: the CPU reservation bound check. *)
Definition validateCPUReservation (ds : DataStore) (lib : Library)
    (oldNode newNode : Node.t) : M unit :=
  let request := NodeSpec.InstanceManagerCPURequest (Node.Spec newNode) in
  if bool_decide (request ≠ 0) then
    r ← read (CallGetKubernetesNodeRO (Node.Name oldNode))
             (GetKubernetesNodeRO ds (Node.Name oldNode));
    match r with
    | Err err =>
        returnIf (negb (ErrorIsNotFound err))
          (NewInvalidError (GetKubernetesNodeFailed err)) ;;
        emit (Warnf ("Kubernetes node " +:+ Node.Name oldNode +:+ " has been deleted"))
    | Ok kubeNode =>
        let allocatableCPU := AllocatableCPUMilliValue kubeNode in
        s ← read (CallGetSettingWithAutoFillingRO SettingNameGuaranteedInstanceManagerCPU)
                 (GetSettingWithAutoFillingRO ds SettingNameGuaranteedInstanceManagerCPU);
        instanceManagerCPUSetting ←
          match s with
          | Err err => return_ (NewInvalidError (GetCPUSettingFailed err))
          | Ok setting => mret setting
          end;
        let instanceManagerCPUInPercentage :=
          if bool_decide (request > 0)
          then FormatCPUPercentage lib request allocatableCPU
          else Value instanceManagerCPUSetting in
        match ValidateCPUReservationValues lib SettingNameGuaranteedInstanceManagerCPU
                instanceManagerCPUInPercentage with
        | Some err => return_ (NewInvalidError (CPUReservationInvalid err))
        | None => mret tt
        end
    end
  else mret tt.

(** Lines 146-149. *)
Definition validateSpecName (newNode : Node.t) : M unit :=
  returnIf (bool_decide (NodeSpec.Name (Node.Spec newNode) = ""))
    (NewInvalidError SpecNameEmpty).

(** Lines 151-158: only a scheduling disabled disk can be evicted. *)
Definition validateDiskEviction (newNode : Node.t) : M unit :=
  range (NodeSpec.Disks (Node.Spec newNode)) (λ diskName diskSpec,
    returnIf (DiskSpec.EvictionRequested diskSpec && DiskSpec.AllowScheduling diskSpec)
      (NewInvalidError (DiskEvictionNeedsSchedulingDisabled diskName))).

(** The body of the loop of lines 167-187. *)
Definition updateDisk (lib : Library) (v2DataEngineEnabled : bool) (newNode : Node.t)
    (name : string) (disk : DiskSpec.t) : M unit :=
  returnIf (bool_decide (DiskSpec.StorageReserved disk < 0))
    (NewInvalidError (StorageReservedNotValid (Node.Name newNode) name (DiskSpec.Path disk))) ;;
  match ValidateTags lib (DiskSpec.Tags disk) with
  | Err err => return_ (NewInvalidError (DiskTagsInvalid err))
  | Ok _ => mret tt
  end ;;
  (if negb v2DataEngineEnabled then
     returnIf (bool_decide (DiskSpec.Type' disk = DiskTypeBlock))
       (NewInvalidError (BlockDeviceWithoutSPDK (Node.Name newNode) name (DiskSpec.Path disk)))
   else mret tt) ;;
  (if bool_decide (DiskSpec.Type' disk ≠ DiskTypeBlock) then
     returnIf (bool_decide (DiskSpec.DiskDriver disk ≠ DiskDriverNone))
       (NewInvalidError (DiskDriverNotSupported name (DiskSpec.Type' disk)))
   else mret tt).

(** Lines 160-187: read the v2 data engine flag, then validate storage
    reserved, tags and type of every disk of the new spec. *)
Definition validateDisks (ds : DataStore) (lib : Library) (newNode : Node.t) : M unit :=
  r ← read (CallGetSettingAsBool SettingNameV2DataEngine)
           (GetSettingAsBool ds SettingNameV2DataEngine);
  v2DataEngineEnabled ←
    match r with
    | Err err => return_ (NewInvalidError (GetSpdkSettingFailed err))
    | Ok b => mret b
    end;
  range (NodeSpec.Disks (Node.Spec newNode)) (updateDisk lib v2DataEngineEnabled newNode).

(** The body of the loop of lines 190-197.  The right operand of [||] reads
    [StorageScheduled] through [oldNode.Status.DiskStatus[name]]; it is only
    evaluated when the disk is not schedulable, and panics when the status
    map has no entry for [name]. *)
Definition deleteDisk (oldNode newNode : Node.t) (name : string) (disk : DiskSpec.t)
  : M unit :=
  match NodeSpec.Disks (Node.Spec newNode) !! name with
  | Some _ => mret tt
  | None =>
      unsafe ←
        (if DiskSpec.AllowScheduling disk then mret true
         else
           match NodeStatus.DiskStatus (Node.Status oldNode) !! name with
           | Some status => mret (bool_decide (DiskStatus.StorageScheduled status ≠ 0))
           | None => return_ NilDereference
           end);
      if (unsafe : bool) then
        emit (Infof ("Delete Disk on node " +:+ name +:+
                     " error: Please disable the disk " +:+ DiskSpec.Path disk +:+
                     " and remove all replicas and backing images first")) ;;
        return_ (NewInvalidError (DeleteDiskNotAllowed name (DiskSpec.Path disk)))
      else mret tt
  end.

(** Lines 189-197: validate deleted disks. *)
Definition validateDeleteDisks (oldNode newNode : Node.t) : M unit :=
  range (NodeSpec.Disks (Node.Spec oldNode)) (deleteDisk oldNode newNode).

(** Lines 199-206: the disk type is not allowed to change. *)
Definition validateDiskTypeChange (oldNode newNode : Node.t) : M unit :=
  range (NodeSpec.Disks (Node.Spec oldNode)) (λ name disk,
    match NodeSpec.Disks (Node.Spec newNode) !! name with
    | Some newDisk =>
        returnIf (bool_decide (DiskSpec.Type' disk ≠ "")
                  && bool_decide (DiskSpec.Type' disk ≠ DiskSpec.Type' newDisk))
          (NewInvalidError
             (DiskTypeChangeNotAllowed (Node.Name newNode) name (DiskSpec.Path disk)))
    | None => mret tt
    end).

(** Lines 100-120: the rules evaluated before the CPU reservation check. *)
Definition rulesBeforeCPUReservation (lib : Library) (oldNode newNode : Node.t) : M unit :=
  validateCPURequest newNode ;;
  validateNodeEviction oldNode newNode ;;
  validateDiskSync oldNode ;;
  validateNodeTags lib newNode.

(** Lines 146-208: what follows the CPU reservation check. *)
Definition rulesAfterCPUReservation (ds : DataStore) (lib : Library)
    (oldNode newNode : Node.t) : M unit :=
  validateSpecName newNode ;;
  validateDiskEviction newNode ;;
  validateDisks ds lib newNode ;;
  validateDeleteDisks oldNode newNode ;;
  validateDiskTypeChange oldNode newNode.

(** Lines 100-187: the rules evaluated before the two loops over the disks
    of the old spec. *)
Definition rulesBeforeDeleteDisks (ds : DataStore) (lib : Library)
    (oldNode newNode : Node.t) : M unit :=
  rulesBeforeCPUReservation lib oldNode newNode ;;
  validateCPUReservation ds lib oldNode newNode ;;
  validateSpecName newNode ;;
  validateDiskEviction newNode ;;
  validateDisks ds lib newNode.

(** Lines 100-208: the rule set applied once the finalizer check has not
    ended the call. *)
Definition updateRules (ds : DataStore) (lib : Library) (oldNode newNode : Node.t)
  : M Empty_set :=
  rulesBeforeCPUReservation lib oldNode newNode ;;
  validateCPUReservation ds lib oldNode newNode ;;
  rulesAfterCPUReservation ds lib oldNode newNode ;;
  return_ Accept.

Definition Update (ds : DataStore) (lib : Library) (oldObj newObj : Object) : M Empty_set :=
  oldNode ← assertNode oldObj;
  newNode ← assertNode newObj;
  match IsRemovingLonghornFinalizer oldNode newNode with
  | Err err => return_ (NewInvalidError (FinalizerCheckFailed err))
  | Ok isRemovingLonghornFinalizer =>
      if isRemovingLonghornFinalizer then return_ Accept
      else updateRules ds lib oldNode newNode
  end.

(** ** Delete *)

Definition Delete (ds : DataStore) (obj : Object) : M Empty_set :=
  node ← assertNode obj;
  let isUninstalling :=
    match Node.Annotations node with
    | Some annotations =>
        bool_decide (is_Some (annotations !! GetLonghornLabelKey DeleteNodeFromLonghorn))
    | None => false
    end in
  returnIf isUninstalling Accept ;;
  r ← read (CallListReplicasByNodeRO (Node.Name node))
           (ListReplicasByNodeRO ds (Node.Name node));
  replicas ←
    match r with
    | Err err => return_ (NewInvalidError (ListReplicasFailed (Node.Name node) err))
    | Ok l => mret l
    end;
  r ← read (CallListEnginesByNodeRO (Node.Name node))
           (ListEnginesByNodeRO ds (Node.Name node));
  engines ←
    match r with
    | Err err => return_ (NewInvalidError (ListEnginesFailed (Node.Name node) err))
    | Ok l => mret l
    end;
  let condition :=
    GetCondition (NodeStatus.Conditions (Node.Status node)) NodeConditionTypeReady in
  returnIf
    (bool_decide (Condition.Status condition = ConditionStatusTrue)
     || (bool_decide (Condition.Reason condition ≠ NodeConditionReasonKubernetesNodeGone)
         && bool_decide (Condition.Reason condition ≠ NodeConditionReasonManagerPodMissing))
     || NodeSpec.AllowScheduling (Node.Spec node)
     || bool_decide (0 < length replicas)%nat
     || bool_decide (0 < length engines)%nat)
    (NewInvalidError
       (CouldNotDeleteNode (Node.Name node) (Condition.Status condition)
          (Condition.Reason condition) (NodeSpec.AllowScheduling (Node.Spec node))
          (length replicas) (length engines))) ;;
  return_ Accept.

(** ** Predicates of the properties *)

(** [m] goes on to the next statement. *)
Definition passes (m : M unit) : Prop := outcome m = inr tt.

(** Every [return] that [m] can execute yields a verdict in [P]. *)
Definition returnsOnly {A} (P : Verdict → Prop) (m : M A) : Prop :=
  ∀ v, outcome m = inl v → P v.

(** The node carries the annotation that marks a deletion by Longhorn itself
    during uninstalling. *)
Definition hasUninstallMarker (node : Node.t) : Prop :=
  ∃ annotations,
    Node.Annotations node = Some annotations ∧
    is_Some (annotations !! GetLonghornLabelKey DeleteNodeFromLonghorn).

(** The five conditions under which a node may be removed from Longhorn. *)
Definition deletable (node : Node.t) (replicas : list Replica) (engines : list Engine)
  : Prop :=
  let condition :=
    GetCondition (NodeStatus.Conditions (Node.Status node)) NodeConditionTypeReady in
  Condition.Status condition ≠ ConditionStatusTrue ∧
  (Condition.Reason condition = NodeConditionReasonKubernetesNodeGone ∨
   Condition.Reason condition = NodeConditionReasonManagerPodMissing) ∧
  NodeSpec.AllowScheduling (Node.Spec node) = false ∧
  length replicas = 0%nat ∧
  length engines = 0%nat.

(** The continuation that the error-handling section of the spec describes
    for a missing Kubernetes node: after the warning, the default
    guaranteed-CPU percentage is read from the setting and validated against
    its accepted range.  It follows the words of the spec, for comparison
    with [validateCPUReservation]; the source has no such path. *)
Definition validateDefaultCPUPercentage (ds : DataStore) (lib : Library) : M unit :=
  s ← read (CallGetSettingWithAutoFillingRO SettingNameGuaranteedInstanceManagerCPU)
           (GetSettingWithAutoFillingRO ds SettingNameGuaranteedInstanceManagerCPU);
  instanceManagerCPUSetting ←
    match s with
    | Err err => return_ (NewInvalidError (GetCPUSettingFailed err))
    | Ok setting => mret setting
    end;
  match ValidateCPUReservationValues lib SettingNameGuaranteedInstanceManagerCPU
          (Value instanceManagerCPUSetting) with
  | Some err => return_ (NewInvalidError (CPUReservationInvalid err))
  | None => mret tt
  end.

(** The CPU reservation check with that continuation in the not-found
    branch; everything else is as in [validateCPUReservation]. *)
Definition validateCPUReservation_withDefaultPath (ds : DataStore) (lib : Library)
    (oldNode newNode : Node.t) : M unit :=
  let request := NodeSpec.InstanceManagerCPURequest (Node.Spec newNode) in
  if bool_decide (request ≠ 0) then
    r ← read (CallGetKubernetesNodeRO (Node.Name oldNode))
             (GetKubernetesNodeRO ds (Node.Name oldNode));
    match r with
    | Err err =>
        returnIf (negb (ErrorIsNotFound err))
          (NewInvalidError (GetKubernetesNodeFailed err)) ;;
        emit (Warnf ("Kubernetes node " +:+ Node.Name oldNode +:+ " has been deleted")) ;;
        validateDefaultCPUPercentage ds lib
    | Ok kubeNode =>
        let allocatableCPU := AllocatableCPUMilliValue kubeNode in
        s ← read (CallGetSettingWithAutoFillingRO SettingNameGuaranteedInstanceManagerCPU)
                 (GetSettingWithAutoFillingRO ds SettingNameGuaranteedInstanceManagerCPU);
        instanceManagerCPUSetting ←
          match s with
          | Err err => return_ (NewInvalidError (GetCPUSettingFailed err))
          | Ok setting => mret setting
          end;
        let instanceManagerCPUInPercentage :=
          if bool_decide (request > 0)
          then FormatCPUPercentage lib request allocatableCPU
          else Value instanceManagerCPUSetting in
        match ValidateCPUReservationValues lib SettingNameGuaranteedInstanceManagerCPU
                instanceManagerCPUInPercentage with
        | Some err => return_ (NewInvalidError (CPUReservationInvalid err))
        | None => mret tt
        end
    end
  else mret tt.

(** ** Sample inputs *)

Module Samples.
Definition filesystemDisk : DiskSpec.t := {|
  DiskSpec.Type' := DiskTypeFilesystem;
  DiskSpec.Path := "/var/lib/longhorn";
  DiskSpec.DiskDriver := DiskDriverNone;
  DiskSpec.AllowScheduling := false;
  DiskSpec.EvictionRequested := false;
  DiskSpec.StorageReserved := 0;
  DiskSpec.Tags := []
|}.

Definition blockDisk : DiskSpec.t := {|
  DiskSpec.Type' := DiskTypeBlock;
  DiskSpec.Path := "/dev/sdb";
  DiskSpec.DiskDriver := DiskDriverNone;
  DiskSpec.AllowScheduling := false;
  DiskSpec.EvictionRequested := false;
  DiskSpec.StorageReserved := 0;
  DiskSpec.Tags := []
|}.

Definition schedulable (disk : DiskSpec.t) : DiskSpec.t := {|
  DiskSpec.Type' := DiskSpec.Type' disk;
  DiskSpec.Path := DiskSpec.Path disk;
  DiskSpec.DiskDriver := DiskSpec.DiskDriver disk;
  DiskSpec.AllowScheduling := true;
  DiskSpec.EvictionRequested := DiskSpec.EvictionRequested disk;
  DiskSpec.StorageReserved := DiskSpec.StorageReserved disk;
  DiskSpec.Tags := DiskSpec.Tags disk
|}.

Definition evicting (disk : DiskSpec.t) : DiskSpec.t := {|
  DiskSpec.Type' := DiskSpec.Type' disk;
  DiskSpec.Path := DiskSpec.Path disk;
  DiskSpec.DiskDriver := DiskSpec.DiskDriver disk;
  DiskSpec.AllowScheduling := DiskSpec.AllowScheduling disk;
  DiskSpec.EvictionRequested := true;
  DiskSpec.StorageReserved := DiskSpec.StorageReserved disk;
  DiskSpec.Tags := DiskSpec.Tags disk
|}.

Definition scheduled (n : Z) : DiskStatus.t := {| DiskStatus.StorageScheduled := n |}.

Definition spec (disks : gmap string DiskSpec.t) (allowScheduling evictionRequested : bool)
    (cpu : Z) : NodeSpec.t := {|
  NodeSpec.Name := "worker-1";
  NodeSpec.Disks := disks;
  NodeSpec.AllowScheduling := allowScheduling;
  NodeSpec.EvictionRequested := evictionRequested;
  NodeSpec.Tags := [];
  NodeSpec.InstanceManagerCPURequest := cpu
|}.

Definition ready (status reason : string) : Condition.t := {|
  Condition.Type' := NodeConditionTypeReady;
  Condition.Status := status;
  Condition.Reason := reason
|}.

Definition node (s : NodeSpec.t) (conditions : list Condition.t)
    (diskStatus : gmap string DiskStatus.t) : Node.t := {|
  Node.Name := "worker-1";
  Node.Annotations := None;
  Node.Finalizers := [];
  Node.DeletionTimestamp := None;
  Node.Spec := s;
  Node.Status := {| NodeStatus.Conditions := conditions;
                    NodeStatus.DiskStatus := diskStatus |}
|}.

(** The same node once its deletion has been requested, with the given
    finalizers. *)
Definition deleting (finalizers : list string) (n : Node.t) : Node.t := {|
  Node.Name := Node.Name n;
  Node.Annotations := Node.Annotations n;
  Node.Finalizers := finalizers;
  Node.DeletionTimestamp := Some 1700000000;
  Node.Spec := Node.Spec n;
  Node.Status := Node.Status n
|}.

Definition annotated (annotations : gmap string string) (n : Node.t) : Node.t := {|
  Node.Name := Node.Name n;
  Node.Annotations := Some annotations;
  Node.Finalizers := Node.Finalizers n;
  Node.DeletionTimestamp := Node.DeletionTimestamp n;
  Node.Spec := Node.Spec n;
  Node.Status := Node.Status n
|}.

(** A datastore in which the Kubernetes node is gone, the data engine flag
    and the guaranteed-CPU setting are as given, and [replicas] replicas
    and engines run on every node. *)
Definition datastore (v2DataEngine : bool) (cpuSetting : string) (replicas : nat)
  : DataStore := {|
  GetSettingAsBool := λ _, Ok v2DataEngine;
  GetSettingWithAutoFillingRO := λ _, Ok {| Value := cpuSetting |};
  GetKubernetesNodeRO := λ name, Err (NotFoundError ("node " +:+ name +:+ " not found"));
  ListReplicasByNodeRO := λ _, Ok (replicate replicas {| ReplicaName := "r" |});
  ListEnginesByNodeRO := λ _, Ok (replicate replicas {| EngineName := "e" |})
|}.

(** A datastore that knows the Kubernetes node, with 8 allocatable CPUs. *)
Definition datastoreWithNode (v2DataEngine : bool) : DataStore := {|
  GetSettingAsBool := λ _, Ok v2DataEngine;
  GetSettingWithAutoFillingRO := λ _, Ok {| Value := "12" |};
  GetKubernetesNodeRO := λ _, Ok {| AllocatableCPUMilliValue := 8000 |};
  ListReplicasByNodeRO := λ _, Ok [];
  ListEnginesByNodeRO := λ _, Ok []
|}.

(** Tags always pass; a CPU percentage passes when it is at most two digits
    long. *)
Definition library : Library := {|
  ValidateTags := λ tags, Ok tags;
  ValidateCPUReservationValues := λ _ value,
    if bool_decide (String.length value ≤ 2)%nat then None
    else Some (OtherError "value out of range");
  FormatCPUPercentage := λ _ _, "10"
|}.

Definition oneDisk (disk : DiskSpec.t) : gmap string DiskSpec.t := {[ "disk-1" := disk ]}.
Definition oneStatus (n : Z) : gmap string DiskStatus.t := {[ "disk-1" := scheduled n ]}.

(** A healthy node with one drained filesystem disk and a CPU request. *)
Definition worker (cpu : Z) : Node.t :=
  node (spec (oneDisk filesystemDisk) false false cpu) [] (oneStatus 0).

(** The same node before the node controller has recorded any disk status. *)
Definition unsyncedWorker : Node.t :=
  node (spec (oneDisk filesystemDisk) false false 0) [] ∅.

(** A node that breaks the CPU, eviction, sync and block-disk rules at once. *)
Definition brokenWorker : Node.t :=
  node (spec (oneDisk (schedulable (evicting blockDisk))) true true (-5)) [] ∅.

(** A node whose only disk is a block device. *)
Definition blockWorker : Node.t :=
  node (spec (oneDisk blockDisk) false false 0) [] (oneStatus 0).

(** A node whose disk still has storage scheduled, and the node with that
    disk taken out of the spec. *)
Definition loadedWorker : Node.t :=
  node (spec (oneDisk filesystemDisk) false false 0) [] (oneStatus 5).
Definition diskless : Node.t :=
  node (spec ∅ false false 0) [] (oneStatus 5).

(** A node with a disk that is both evicting and schedulable. *)
Definition evictingWorker : Node.t :=
  node (spec (oneDisk (schedulable (evicting filesystemDisk))) false false 0) []
    (oneStatus 0).

(** A node whose Kubernetes node is gone, ready to be removed. *)
Definition goneWorker : Node.t :=
  node (spec ∅ false false 0)
    [ready "False" NodeConditionReasonKubernetesNodeGone] ∅.

(** A ready, schedulable node marked as deleted by Longhorn. *)
Definition uninstalledWorker : Node.t :=
  annotated {[ GetLonghornLabelKey DeleteNodeFromLonghorn := "" ]}
    (node (spec ∅ true false 0) [ready ConditionStatusTrue ""] ∅).
End Samples.

(** ** Predicates of the further properties *)

(** A read through the datastore, as opposed to a log line. *)
Definition isRead (e : Event) : Prop :=
  match e with
  | Warnf _ | Infof _ => False
  | _ => True
  end.

#[global] Instance isRead_dec e : Decision (isRead e).
Proof. destruct e; simpl; apply _. Defined.

(** The reads a call has made, in the order it made them. *)
Definition reads {A} (m : M A) : list Event := filter isRead (events m).

(** What lines 65-75 ask of a disk: no block device while the v2 data engine
    is disabled, and no disk driver on a disk that is not a block device. *)
Definition createAdmissible (v2DataEngineEnabled : bool) (disk : DiskSpec.t) : Prop :=
  (v2DataEngineEnabled = false → DiskSpec.Type' disk ≠ DiskTypeBlock) ∧
  (DiskSpec.Type' disk ≠ DiskTypeBlock → DiskSpec.DiskDriver disk = DiskDriverNone).

(** What lines 168-186 ask of a disk. *)
Definition updateAdmissible (lib : Library) (v2DataEngineEnabled : bool)
    (disk : DiskSpec.t) : Prop :=
  0 ≤ DiskSpec.StorageReserved disk ∧
  (∃ tags, ValidateTags lib (DiskSpec.Tags disk) = Ok tags) ∧
  createAdmissible v2DataEngineEnabled disk.

(** What lines 122-144 ask for, given a request that is not negative: no
    request, or a Kubernetes node that is gone, or a node and a setting that
    can be read and a requested percentage that validates. *)
Definition cpuReservationAdmissible (ds : DataStore) (lib : Library)
    (oldNode newNode : Node.t) : Prop :=
  let request := NodeSpec.InstanceManagerCPURequest (Node.Spec newNode) in
  request = 0 ∨
  (∃ err, GetKubernetesNodeRO ds (Node.Name oldNode) = Err err ∧
          ErrorIsNotFound err = true) ∨
  (∃ kubeNode setting,
     GetKubernetesNodeRO ds (Node.Name oldNode) = Ok kubeNode ∧
     GetSettingWithAutoFillingRO ds SettingNameGuaranteedInstanceManagerCPU = Ok setting ∧
     ValidateCPUReservationValues lib SettingNameGuaranteedInstanceManagerCPU
       (FormatCPUPercentage lib request (AllocatableCPUMilliValue kubeNode)) = None).

(** What lines 190-197 ask for: a disk taken out of the spec was not
    schedulable and has no storage scheduled in its status. *)
Definition removalSafe (oldNode newNode : Node.t) : Prop :=
  ∀ name disk,
    NodeSpec.Disks (Node.Spec oldNode) !! name = Some disk →
    NodeSpec.Disks (Node.Spec newNode) !! name = None →
    DiskSpec.AllowScheduling disk = false ∧
    ∀ status, NodeStatus.DiskStatus (Node.Status oldNode) !! name = Some status →
              DiskStatus.StorageScheduled status = 0.

(** What lines 200-206 ask for: a kept disk with a type keeps it. *)
Definition typesKept (oldNode newNode : Node.t) : Prop :=
  ∀ name disk newDisk,
    NodeSpec.Disks (Node.Spec oldNode) !! name = Some disk →
    NodeSpec.Disks (Node.Spec newNode) !! name = Some newDisk →
    DiskSpec.Type' disk = "" ∨ DiskSpec.Type' disk = DiskSpec.Type' newDisk.

(** All that lines 100-206 ask of an update. *)
Definition updateAcceptable (ds : DataStore) (lib : Library) (oldNode newNode : Node.t)
  : Prop :=
  0 ≤ NodeSpec.InstanceManagerCPURequest (Node.Spec newNode) ∧
  ¬ (NodeSpec.EvictionRequested (Node.Spec newNode) = true ∧
     NodeSpec.AllowScheduling (Node.Spec newNode) = true) ∧
  dom (NodeSpec.Disks (Node.Spec oldNode)) = dom (NodeStatus.DiskStatus (Node.Status oldNode)) ∧
  (∃ tags, ValidateTags lib (NodeSpec.Tags (Node.Spec newNode)) = Ok tags) ∧
  cpuReservationAdmissible ds lib oldNode newNode ∧
  NodeSpec.Name (Node.Spec newNode) ≠ "" ∧
  (∃ v2DataEngineEnabled,
     GetSettingAsBool ds SettingNameV2DataEngine = Ok v2DataEngineEnabled ∧
     ∀ name disk,
       NodeSpec.Disks (Node.Spec newNode) !! name = Some disk →
       ¬ (DiskSpec.EvictionRequested disk = true ∧ DiskSpec.AllowScheduling disk = true) ∧
       updateAdmissible lib v2DataEngineEnabled disk) ∧
  removalSafe oldNode newNode ∧
  typesKept oldNode newNode.

(** The Info line of line 193 is in the events of [m] exactly when [m] has
    returned the error of line 194. *)
Definition infoLogAgrees {A} (m : M A) : Prop :=
  (∃ line, Infof line ∈ events m) ↔
  (∃ name path, outcome m = inl (NewInvalidError (DeleteDiskNotAllowed name path))).

(** Sample datastores in which a read fails for another reason than a
    missing object. *)
Module Failures.
Definition unavailable : error := OtherError "connection refused".

Definition kubernetesNode : DataStore := {|
  GetSettingAsBool := λ _, Ok false;
  GetSettingWithAutoFillingRO := λ _, Ok {| Value := "12" |};
  GetKubernetesNodeRO := λ _, Err unavailable;
  ListReplicasByNodeRO := λ _, Ok [];
  ListEnginesByNodeRO := λ _, Ok []
|}.

Definition replicaListing : DataStore := {|
  GetSettingAsBool := λ _, Ok false;
  GetSettingWithAutoFillingRO := λ _, Ok {| Value := "12" |};
  GetKubernetesNodeRO := λ _, Ok {| AllocatableCPUMilliValue := 8000 |};
  ListReplicasByNodeRO := λ _, Err unavailable;
  ListEnginesByNodeRO := λ _, Ok []
|}.

Definition engineListing : DataStore := {|
  GetSettingAsBool := λ _, Ok false;
  GetSettingWithAutoFillingRO := λ _, Ok {| Value := "12" |};
  GetKubernetesNodeRO := λ _, Ok {| AllocatableCPUMilliValue := 8000 |};
  ListReplicasByNodeRO := λ _, Ok [];
  ListEnginesByNodeRO := λ _, Err unavailable
|}.

(** A disk of type filesystem that names a disk driver. *)
Definition drivenDisk : DiskSpec.t := {|
  DiskSpec.Type' := DiskTypeFilesystem;
  DiskSpec.Path := "/var/lib/longhorn";
  DiskSpec.DiskDriver := "aio";
  DiskSpec.AllowScheduling := false;
  DiskSpec.EvictionRequested := false;
  DiskSpec.StorageReserved := 0;
  DiskSpec.Tags := []
|}.

Definition drivenWorker : Node.t :=
  Samples.node (Samples.spec (Samples.oneDisk drivenDisk) false false 0) []
    (Samples.oneStatus 0).
End Failures.

(** ** Reasoning about computations *)

Section Computations.
Context {A B : Type}.
Implicit Types (m : M A) (f : A → M B) (P : Verdict → Prop).

Lemma outcome_bind m f :
  outcome (m ≫= f) =
    match outcome m with
    | inl v => inl v
    | inr a => outcome (f a)
    end.
Proof. unfold mbind, M_bind. by destruct (outcome m). Qed.

Lemma bind_continues m f b :
  outcome (m ≫= f) = inr b ↔ ∃ a, outcome m = inr a ∧ outcome (f a) = inr b.
Proof.
  rewrite outcome_bind. destruct (outcome m) as [v|a]; split.
  - discriminate.
  - intros (a & Ha & _). discriminate.
  - eauto.
  - intros (a' & [= <-] & Hf). done.
Qed.

Lemma bind_returns m f v :
  outcome (m ≫= f) = inl v ↔
  outcome m = inl v ∨ ∃ a, outcome m = inr a ∧ outcome (f a) = inl v.
Proof.
  rewrite outcome_bind. destruct (outcome m) as [v'|a]; split.
  - intros [= ->]. by left.
  - intros [[= ->]|(a & Ha & _)]; [done | discriminate].
  - intros Hf. right. eauto.
  - intros [Hv|(a' & [= <-] & Hf)]; [discriminate | done].
Qed.
End Computations.

Lemma passes_bind (m : M unit) (k : M unit) :
  passes (m ;; k) ↔ passes m ∧ passes k.
Proof.
  unfold passes. rewrite bind_continues. split.
  - intros ([] & Hm & Hk). done.
  - intros [Hm Hk]. by exists tt.
Qed.

Lemma passes_returnIf c v : passes (returnIf c v) ↔ c = false.
Proof. unfold passes, returnIf. destruct c; simpl; split; (done || discriminate). Qed.

Lemma passes_or_returns (m : M unit) : passes m ∨ ∃ v, outcome m = inl v.
Proof. unfold passes. destruct (outcome m) as [v|[]]; eauto. Qed.

Lemma passes_not_returns (m : M unit) v : passes m → outcome m ≠ inl v.
Proof. unfold passes. intros ->. discriminate. Qed.

Lemma passes_forEach {A} (l : list A) (body : A → M unit) :
  passes (forEach l body) ↔ ∀ x, x ∈ l → passes (body x).
Proof.
  induction l as [|x l IH]; simpl.
  - split; [|done]. intros _ x Hx. by apply elem_of_nil in Hx.
  - rewrite passes_bind, IH. setoid_rewrite elem_of_cons. naive_solver.
Qed.

Lemma passes_range {V} (m : gmap string V) (body : string → V → M unit) :
  passes (range m body) ↔ ∀ k x, m !! k = Some x → passes (body k x).
Proof.
  unfold range. rewrite passes_forEach. split.
  - intros H k x Hk. by apply (H (k, x)), elem_of_map_to_list.
  - intros H [k x] Hk. by apply H, elem_of_map_to_list.
Qed.

Lemma returnsOnly_bind {A B} P (m : M A) (f : A → M B) :
  returnsOnly P m →
  (∀ a, outcome m = inr a → returnsOnly P (f a)) →
  returnsOnly P (m ≫= f).
Proof.
  intros Hm Hf v [Hv|(a & Ha & Hv)]%bind_returns; [by apply Hm | by eapply Hf].
Qed.

Lemma returnsOnly_ret {A} P (a : A) : returnsOnly P (mret a).
Proof. intros v. discriminate. Qed.

Lemma returnsOnly_emit P e : returnsOnly P (emit e).
Proof. intros v. discriminate. Qed.

Lemma returnsOnly_read {A} P e (r : result A) : returnsOnly P (read e r).
Proof. intros v. discriminate. Qed.

Lemma returnsOnly_return {A} (P : Verdict → Prop) v : P v → returnsOnly P (@return_ A v).
Proof. intros Hv v' [= <-]. done. Qed.

Lemma returnsOnly_returnIf (P : Verdict → Prop) c v :
  (c = true → P v) → returnsOnly P (returnIf c v).
Proof.
  unfold returnIf. destruct c; intros Hv.
  - apply returnsOnly_return. by apply Hv.
  - apply returnsOnly_ret.
Qed.

Lemma returnsOnly_forEach {A} P (l : list A) (body : A → M unit) :
  (∀ x, x ∈ l → returnsOnly P (body x)) → returnsOnly P (forEach l body).
Proof.
  induction l as [|x l IH]; simpl; intros H.
  - apply returnsOnly_ret.
  - apply returnsOnly_bind.
    + apply H. by left.
    + intros _ _. apply IH. intros y Hy. apply H. by right.
Qed.

Lemma returnsOnly_range {V} P (m : gmap string V) (body : string → V → M unit) :
  (∀ k x, m !! k = Some x → returnsOnly P (body k x)) → returnsOnly P (range m body).
Proof.
  intros H. apply returnsOnly_forEach. intros [k x] Hk.
  by apply H, elem_of_map_to_list.
Qed.

(** A loop over a map stops at some entry whose body returns. *)
Lemma range_returns {V} (m : gmap string V) (body : string → V → M unit) v :
  outcome (range m body) = inl v →
  ∃ k x, m !! k = Some x ∧ outcome (body k x) = inl v.
Proof.
  unfold range. intros Hv.
  assert (∃ kv, kv ∈ map_to_list m ∧ outcome (body kv.1 kv.2) = inl v)
    as ([k x] & Hin & Hb).
  { induction (map_to_list m) as [|kv l IH]; simpl in Hv; [discriminate|].
    apply bind_returns in Hv as [Hv|([] & _ & Hv)].
    - exists kv. split; [by left | done].
    - destruct (IH Hv) as (kv' & Hin & Hb). exists kv'. split; [by right | done]. }
  exists k, x. split; [by apply elem_of_map_to_list | done].
Qed.

Lemma verdict_outcome (m : M Empty_set) v : verdict m = v ↔ outcome m = inl v.
Proof.
  unfold verdict. destruct (outcome m) as [v'|[]]. split; [by intros -> | by intros [= ->]].
Qed.

Lemma verdict_returnsOnly P (m : M Empty_set) : returnsOnly P m → P (verdict m).
Proof. intros H. apply H. by apply verdict_outcome. Qed.

(** ** Delete *)

Lemma Delete_after_listing ds node replicas engines :
  ¬ hasUninstallMarker node →
  ListReplicasByNodeRO ds (Node.Name node) = Ok replicas →
  ListEnginesByNodeRO ds (Node.Name node) = Ok engines →
  let condition :=
    GetCondition (NodeStatus.Conditions (Node.Status node)) NodeConditionTypeReady in
  verdict (Delete ds (NodeObject node)) =
    if bool_decide (deletable node replicas engines) then Accept
    else NewInvalidError
           (CouldNotDeleteNode (Node.Name node) (Condition.Status condition)
              (Condition.Reason condition) (NodeSpec.AllowScheduling (Node.Spec node))
              (length replicas) (length engines)).
Proof.
  intros Hmark Hr He condition.
  assert (match Node.Annotations node with
          | Some annotations =>
              bool_decide (is_Some (annotations !! GetLonghornLabelKey DeleteNodeFromLonghorn))
          | None => false
          end = false) as Hu.
  { destruct (Node.Annotations node) as [a|] eqn:Ha; [|done].
    apply bool_decide_eq_false. intros Hk. apply Hmark. by exists a. }
  apply verdict_outcome. unfold Delete. simpl.
  rewrite Hu, Hr, He. simpl. fold condition.
  unfold deletable. fold condition.
  destruct (NodeSpec.AllowScheduling (Node.Spec node));
    destruct replicas, engines; simpl;
    repeat case_bool_decide; simpl; try done; naive_solver.
Qed.

(** C4. On a node without the uninstall marker whose replica and engine
    listings succeed, [Delete] accepts exactly when the Ready condition is not
    True, its reason is that the Kubernetes node is gone or that the manager
    pod is missing, scheduling is disabled, and no replica and no engine is
    bound to the node; when any of the five fails the request is rejected. *)
Theorem Delete_accepts_iff_deletable ds node replicas engines :
  ¬ hasUninstallMarker node →
  ListReplicasByNodeRO ds (Node.Name node) = Ok replicas →
  ListEnginesByNodeRO ds (Node.Name node) = Ok engines →
  (verdict (Delete ds (NodeObject node)) = Accept ↔ deletable node replicas engines) ∧
  (¬ deletable node replicas engines → rejected (verdict (Delete ds (NodeObject node)))).
Proof.
  intros Hmark Hr He.
  pose proof (Delete_after_listing ds node replicas engines Hmark Hr He) as Hv.
  simpl in Hv. rewrite Hv. case_bool_decide as Hd; split.
  - done.
  - done.
  - split; [discriminate | done].
  - intros _. unfold rejected, NewInvalidError. eauto.
Qed.

(** C5. A node that carries the uninstall marker annotation is deleted
    without further checks: [Delete] returns nil and has read neither the
    replicas nor the engines of the node. *)
Theorem Delete_uninstalling_accepted ds node :
  hasUninstallMarker node →
  Delete ds (NodeObject node) = Step [] (inl Accept).
Proof.
  intros (annotations & Ha & Hk). unfold Delete, mbind, M_bind. simpl.
  rewrite Ha. by rewrite bool_decide_eq_true_2.
Qed.

(** ** Update: the rules one by one *)

Lemma bind_assoc {A B C} (m : M A) (f : A → M B) (g : B → M C) :
  (m ≫= f) ≫= g = m ≫= (λ a, f a ≫= g).
Proof.
  destruct m as [es [v|a]]; unfold mbind, M_bind; simpl; [done|].
  destruct (f a) as [es' [v|b]]; simpl; [done|].
  by rewrite app_assoc.
Qed.

Lemma outcome_bind_passes {B} (m : M unit) (k : M B) :
  passes m → outcome (m ;; k) = outcome k.
Proof. unfold passes. intros Hm. by rewrite outcome_bind, Hm. Qed.

Lemma outcome_bind_returns {A B} (m : M A) (f : A → M B) v :
  outcome m = inl v → outcome (m ≫= f) = inl v.
Proof. intros Hm. by rewrite outcome_bind, Hm. Qed.

Lemma isNodeDiskSpecAndStatusSynced_true node :
  isNodeDiskSpecAndStatusSynced node = true ↔
  size (NodeSpec.Disks (Node.Spec node)) = size (NodeStatus.DiskStatus (Node.Status node)) ∧
  ∀ name, is_Some (NodeSpec.Disks (Node.Spec node) !! name) →
          is_Some (NodeStatus.DiskStatus (Node.Status node) !! name).
Proof.
  unfold isNodeDiskSpecAndStatusSynced. case_bool_decide as Hsize.
  - split; [discriminate | by intros [? _]].
  - rewrite forallb_forall. split.
    + intros H. split; [done|]. intros name [disk Hd].
      apply elem_of_map_to_list, list_elem_of_In, H in Hd.
      by apply bool_decide_eq_true in Hd.
    + intros [_ H] [name disk] Hin. apply bool_decide_eq_true, H.
      exists disk. by apply elem_of_map_to_list, list_elem_of_In.
Qed.

Lemma isNodeDiskSpecAndStatusSynced_false node :
  isNodeDiskSpecAndStatusSynced node = false ↔
  size (NodeSpec.Disks (Node.Spec node)) ≠ size (NodeStatus.DiskStatus (Node.Status node)) ∨
  ∃ name, is_Some (NodeSpec.Disks (Node.Spec node) !! name) ∧
          NodeStatus.DiskStatus (Node.Status node) !! name = None.
Proof.
  rewrite <- not_true_iff_false, isNodeDiskSpecAndStatusSynced_true. split.
  - intros Hn.
    destruct (decide (size (NodeSpec.Disks (Node.Spec node))
                      = size (NodeStatus.DiskStatus (Node.Status node)))) as [Hs|Hs];
      [right | by left].
    destruct (decide (Forall
      (λ kv : string * DiskSpec.t,
         is_Some (NodeStatus.DiskStatus (Node.Status node) !! kv.1))
      (map_to_list (NodeSpec.Disks (Node.Spec node))))) as [Hall|Hex].
    + exfalso. apply Hn. split; [done|]. intros name [disk Hd].
      rewrite Forall_forall in Hall. by apply (Hall (name, disk)), elem_of_map_to_list.
    + apply not_Forall_Exists, Exists_exists in Hex as ([name disk] & Hin & Hno); [|apply _].
      exists name. split.
      * exists disk. by apply elem_of_map_to_list.
      * simpl in Hno. by apply eq_None_not_Some.
  - intros [Hs|(name & Hd & Hno)] [Hs' Hall]; [done|].
    apply Hall in Hd as [st Hst]. congruence.
Qed.

Lemma passes_validateCPURequest newNode :
  passes (validateCPURequest newNode) ↔
  0 ≤ NodeSpec.InstanceManagerCPURequest (Node.Spec newNode).
Proof.
  unfold validateCPURequest. rewrite passes_returnIf, bool_decide_eq_false. lia.
Qed.

Lemma passes_validateNodeEviction oldNode newNode :
  passes (validateNodeEviction oldNode newNode) ↔
  NodeSpec.EvictionRequested (Node.Spec newNode)
  && NodeSpec.AllowScheduling (Node.Spec newNode) = false.
Proof. unfold validateNodeEviction. by rewrite passes_returnIf. Qed.

Lemma passes_validateDiskSync oldNode :
  passes (validateDiskSync oldNode) ↔ isNodeDiskSpecAndStatusSynced oldNode = true.
Proof. unfold validateDiskSync. by rewrite passes_returnIf, negb_false_iff. Qed.

Lemma passes_validateDiskEviction newNode :
  passes (validateDiskEviction newNode) ↔
  ∀ diskName diskSpec,
    NodeSpec.Disks (Node.Spec newNode) !! diskName = Some diskSpec →
    DiskSpec.EvictionRequested diskSpec && DiskSpec.AllowScheduling diskSpec = false.
Proof.
  unfold validateDiskEviction. rewrite passes_range.
  by setoid_rewrite passes_returnIf.
Qed.

Lemma passes_validateDisks ds lib newNode :
  passes (validateDisks ds lib newNode) ↔
  ∃ v2DataEngineEnabled,
    GetSettingAsBool ds SettingNameV2DataEngine = Ok v2DataEngineEnabled ∧
    ∀ name disk,
      NodeSpec.Disks (Node.Spec newNode) !! name = Some disk →
      passes (updateDisk lib v2DataEngineEnabled newNode name disk).
Proof.
  unfold validateDisks. unfold passes at 1. rewrite !outcome_bind. simpl.
  destruct (GetSettingAsBool ds SettingNameV2DataEngine) as [b|err]; simpl.
  - fold (passes (range (NodeSpec.Disks (Node.Spec newNode)) (updateDisk lib b newNode))).
    rewrite passes_range. split.
    + intros H. by exists b.
    + intros (b' & [= <-] & H). done.
  - split; [discriminate|]. intros (b & Hb & _). discriminate.
Qed.

Lemma updateDisk_block_disabled lib newNode name disk :
  DiskSpec.Type' disk = DiskTypeBlock →
  ¬ passes (updateDisk lib false newNode name disk).
Proof.
  intros Hblock. unfold updateDisk. simpl.
  rewrite !passes_bind, !passes_returnIf.
  intros (_ & _ & Hb & _). by apply bool_decide_eq_false in Hb.
Qed.

Lemma passes_validateDeleteDisks oldNode newNode :
  passes (validateDeleteDisks oldNode newNode) ↔
  ∀ name disk,
    NodeSpec.Disks (Node.Spec oldNode) !! name = Some disk →
    passes (deleteDisk oldNode newNode name disk).
Proof. unfold validateDeleteDisks. by rewrite passes_range. Qed.

(** What the body of the removal loop does on a disk that is gone from the
    new spec and whose status is known. *)
Lemma deleteDisk_removed oldNode newNode name disk status :
  NodeSpec.Disks (Node.Spec newNode) !! name = None →
  NodeStatus.DiskStatus (Node.Status oldNode) !! name = Some status →
  outcome (deleteDisk oldNode newNode name disk) =
    if DiskSpec.AllowScheduling disk
       || bool_decide (DiskStatus.StorageScheduled status ≠ 0)
    then inl (NewInvalidError (DeleteDiskNotAllowed name (DiskSpec.Path disk)))
    else inr tt.
Proof.
  intros Hnew Hst. unfold deleteDisk. rewrite Hnew, Hst.
  destruct (DiskSpec.AllowScheduling disk); simpl; [done|].
  by case_bool_decide.
Qed.

Lemma deleteDisk_kept oldNode newNode name disk :
  is_Some (NodeSpec.Disks (Node.Spec newNode) !! name) →
  deleteDisk oldNode newNode name disk = mret tt.
Proof. intros [d Hd]. unfold deleteDisk. by rewrite Hd. Qed.

Lemma passes_validateDiskTypeChange oldNode newNode :
  passes (validateDiskTypeChange oldNode newNode) ↔
  ∀ name disk newDisk,
    NodeSpec.Disks (Node.Spec oldNode) !! name = Some disk →
    NodeSpec.Disks (Node.Spec newNode) !! name = Some newDisk →
    DiskSpec.Type' disk = "" ∨ DiskSpec.Type' disk = DiskSpec.Type' newDisk.
Proof.
  unfold validateDiskTypeChange. rewrite passes_range. split.
  - intros H name disk newDisk Hold Hnew. specialize (H name disk Hold).
    rewrite Hnew, passes_returnIf, andb_false_iff, !bool_decide_eq_false in H.
    destruct H as [H|H]; [left | right]; by apply dec_stable.
  - intros H name disk Hold.
    destruct (NodeSpec.Disks (Node.Spec newNode) !! name) as [newDisk|] eqn:Hnew; [|done].
    rewrite passes_returnIf, andb_false_iff, !bool_decide_eq_false.
    destruct (H name disk newDisk Hold Hnew) as [Ht|Ht]; [left | right]; by intros [].
Qed.

(** ** Update: which verdicts a block of rules can return *)

Ltac returns_step :=
  lazymatch goal with
  | |- returnsOnly _ (_ ≫= _) => apply returnsOnly_bind; [|intros ? ?]
  | |- returnsOnly _ (mret _) => apply returnsOnly_ret
  | |- returnsOnly _ (assertNode (NodeObject _)) => apply returnsOnly_ret
  | |- returnsOnly _ (emit _) => apply returnsOnly_emit
  | |- returnsOnly _ (read _ _) => apply returnsOnly_read
  | |- returnsOnly _ (returnIf _ _) => apply returnsOnly_returnIf; intros ?
  | |- returnsOnly _ (return_ _) => apply returnsOnly_return
  | |- returnsOnly _ (range _ _) => apply returnsOnly_range; intros ? ? ?
  | |- returnsOnly _ (match ?x with _ => _ end) => destruct x eqn:?
  end.

Ltac unfold_rules :=
  unfold rulesBeforeCPUReservation, rulesAfterCPUReservation,
    validateCPURequest, validateNodeEviction, validateDiskSync, validateNodeTags,
    validateCPUReservation, validateSpecName, validateDiskEviction, validateDisks,
    updateDisk, validateDeleteDisks, deleteDisk, validateDiskTypeChange, createDisk.

Lemma rejected_invalid r : rejected (NewInvalidError r).
Proof. unfold rejected, NewInvalidError. eauto. Qed.

Lemma rejected_forbidden r : rejected (NewForbiddenError r).
Proof. unfold rejected, NewForbiddenError. eauto. Qed.

#[local] Hint Resolve rejected_invalid rejected_forbidden : core.

Lemma rulesBeforeCPUReservation_rejects lib oldNode newNode :
  returnsOnly rejected (rulesBeforeCPUReservation lib oldNode newNode).
Proof. unfold_rules. repeat returns_step; auto. Qed.

Lemma validateCPUReservation_rejects ds lib oldNode newNode :
  returnsOnly rejected (validateCPUReservation ds lib oldNode newNode).
Proof. unfold_rules. repeat returns_step; auto. Qed.

Lemma synced_status oldNode name disk :
  isNodeDiskSpecAndStatusSynced oldNode = true →
  NodeSpec.Disks (Node.Spec oldNode) !! name = Some disk →
  is_Some (NodeStatus.DiskStatus (Node.Status oldNode) !! name).
Proof.
  intros [_ H]%isNodeDiskSpecAndStatusSynced_true Hd. apply H. by exists disk.
Qed.

Lemma rulesAfterCPUReservation_rejects ds lib oldNode newNode :
  isNodeDiskSpecAndStatusSynced oldNode = true →
  returnsOnly rejected (rulesAfterCPUReservation ds lib oldNode newNode).
Proof.
  intros Hsync. unfold_rules. repeat returns_step; auto.
  edestruct synced_status as [st Hst]; [done..|]. congruence.
Qed.

Lemma passes_rulesBeforeCPUReservation lib oldNode newNode :
  passes (rulesBeforeCPUReservation lib oldNode newNode) ↔
  passes (validateCPURequest newNode) ∧
  passes (validateNodeEviction oldNode newNode) ∧
  passes (validateDiskSync oldNode) ∧
  passes (validateNodeTags lib newNode).
Proof. unfold rulesBeforeCPUReservation. by rewrite !passes_bind. Qed.

Lemma passes_rulesAfterCPUReservation ds lib oldNode newNode :
  passes (rulesAfterCPUReservation ds lib oldNode newNode) ↔
  passes (validateSpecName newNode) ∧
  passes (validateDiskEviction newNode) ∧
  passes (validateDisks ds lib newNode) ∧
  passes (validateDeleteDisks oldNode newNode) ∧
  passes (validateDiskTypeChange oldNode newNode).
Proof. unfold rulesAfterCPUReservation. by rewrite !passes_bind. Qed.

Lemma passes_rulesBeforeDeleteDisks ds lib oldNode newNode :
  passes (rulesBeforeDeleteDisks ds lib oldNode newNode) ↔
  passes (rulesBeforeCPUReservation lib oldNode newNode) ∧
  passes (validateCPUReservation ds lib oldNode newNode) ∧
  passes (validateSpecName newNode) ∧
  passes (validateDiskEviction newNode) ∧
  passes (validateDisks ds lib newNode).
Proof. unfold rulesBeforeDeleteDisks. by rewrite !passes_bind. Qed.

Lemma rulesBeforeCPUReservation_synced lib oldNode newNode :
  passes (rulesBeforeCPUReservation lib oldNode newNode) →
  isNodeDiskSpecAndStatusSynced oldNode = true.
Proof.
  intros (_ & _ & Hs & _)%passes_rulesBeforeCPUReservation.
  by apply passes_validateDiskSync.
Qed.

(** The rule set ends in nil exactly when every rule lets the request pass,
    and in an error otherwise. *)
Lemma updateRules_verdict ds lib oldNode newNode :
  (verdict (updateRules ds lib oldNode newNode) = Accept ∧
   passes (rulesBeforeCPUReservation lib oldNode newNode) ∧
   passes (validateCPUReservation ds lib oldNode newNode) ∧
   passes (rulesAfterCPUReservation ds lib oldNode newNode)) ∨
  (rejected (verdict (updateRules ds lib oldNode newNode)) ∧
   ¬ (passes (rulesBeforeCPUReservation lib oldNode newNode) ∧
      passes (validateCPUReservation ds lib oldNode newNode) ∧
      passes (rulesAfterCPUReservation ds lib oldNode newNode))).
Proof.
  unfold updateRules.
  destruct (passes_or_returns (rulesBeforeCPUReservation lib oldNode newNode))
    as [Hb|[v Hv]].
  2: { right. split.
       - erewrite (proj2 (verdict_outcome _ _)); [|by apply outcome_bind_returns].
         by eapply rulesBeforeCPUReservation_rejects.
       - intros (Hb & _). by eapply passes_not_returns. }
  destruct (passes_or_returns (validateCPUReservation ds lib oldNode newNode))
    as [Hc|[v Hv]].
  2: { right. split.
       - erewrite (proj2 (verdict_outcome _ _));
           [|rewrite outcome_bind_passes by done; by apply outcome_bind_returns].
         by eapply validateCPUReservation_rejects.
       - intros (_ & Hc & _). by eapply passes_not_returns. }
  destruct (passes_or_returns (rulesAfterCPUReservation ds lib oldNode newNode))
    as [Ha|[v Hv]].
  2: { right. split.
       - erewrite (proj2 (verdict_outcome _ _));
           [|rewrite !outcome_bind_passes by done; by apply outcome_bind_returns].
         eapply rulesAfterCPUReservation_rejects; [|done].
         by eapply rulesBeforeCPUReservation_synced.
       - intros (_ & _ & Ha). by eapply passes_not_returns. }
  left. split; [|done].
  apply verdict_outcome. by rewrite !outcome_bind_passes.
Qed.

Lemma verdict_Update ds lib oldNode newNode :
  verdict (Update ds lib (NodeObject oldNode) (NodeObject newNode)) =
    if bool_decide (removesOnlyLonghornFinalizer oldNode newNode) then Accept
    else verdict (updateRules ds lib oldNode newNode).
Proof.
  unfold verdict, Update. rewrite !outcome_bind. simpl.
  by case_bool_decide.
Qed.

Lemma Update_rejects_non_nodes ds lib oldObj newObj :
  (∀ oldNode newNode, ¬ (oldObj = NodeObject oldNode ∧ newObj = NodeObject newNode)) →
  rejected (verdict (Update ds lib oldObj newObj)).
Proof.
  intros Hn. unfold verdict, Update. rewrite !outcome_bind.
  destruct oldObj as [oldNode|]; simpl; [|auto].
  destruct newObj as [newNode|]; simpl; [|auto].
  by destruct (Hn oldNode newNode).
Qed.

(** A verdict of [Update] is nil or an error. *)
Lemma Update_accepts_or_rejects ds lib oldObj newObj :
  verdict (Update ds lib oldObj newObj) = Accept ∨
  rejected (verdict (Update ds lib oldObj newObj)).
Proof.
  destruct oldObj as [oldNode|p]; [destruct newObj as [newNode|p]|].
  - rewrite verdict_Update. case_bool_decide; [by left|].
    destruct (updateRules_verdict ds lib oldNode newNode) as [[-> _]|[Hr _]]; auto.
  - right. apply Update_rejects_non_nodes. intros ?? [_ [=]].
  - right. apply Update_rejects_non_nodes. intros ?? [[=] _].
Qed.

Lemma updateRules_after_prefix ds lib oldNode newNode :
  passes (rulesBeforeDeleteDisks ds lib oldNode newNode) →
  outcome (updateRules ds lib oldNode newNode) =
  outcome (validateDeleteDisks oldNode newNode ;;
           validateDiskTypeChange oldNode newNode ;;
           (return_ Accept : M Empty_set)).
Proof.
  intros (Hb & Hc & Hn & He & Hd)%passes_rulesBeforeDeleteDisks.
  unfold updateRules, rulesAfterCPUReservation. rewrite !bind_assoc.
  rewrite (outcome_bind_passes _ _ Hb), (outcome_bind_passes _ _ Hc).
  by rewrite (outcome_bind_passes _ _ Hn), (outcome_bind_passes _ _ He),
    (outcome_bind_passes _ _ Hd).
Qed.

(** The removal loop returns only for a disk that is gone from the new spec
    and was schedulable or still had storage scheduled. *)
Lemma deleteDisk_returns oldNode newNode name disk v :
  is_Some (NodeStatus.DiskStatus (Node.Status oldNode) !! name) →
  outcome (deleteDisk oldNode newNode name disk) = inl v →
  v = NewInvalidError (DeleteDiskNotAllowed name (DiskSpec.Path disk)) ∧
  NodeSpec.Disks (Node.Spec newNode) !! name = None ∧
  (DiskSpec.AllowScheduling disk = true ∨
   ∃ status, NodeStatus.DiskStatus (Node.Status oldNode) !! name = Some status ∧
             DiskStatus.StorageScheduled status ≠ 0).
Proof.
  intros [status Hst] Hv.
  destruct (NodeSpec.Disks (Node.Spec newNode) !! name) as [d|] eqn:Hnew.
  { rewrite deleteDisk_kept in Hv by eauto. discriminate. }
  rewrite (deleteDisk_removed _ _ _ _ status) in Hv by done.
  destruct (DiskSpec.AllowScheduling disk) eqn:Ha; simpl in Hv.
  - injection Hv as <-. auto.
  - case_bool_decide as Hs; [|discriminate]. injection Hv as <-.
    split; [done|]. split; [done|]. right. eauto.
Qed.

(** ** Update: the claims *)

(** C2. An update that is not a pure finalizer removal and passes the sign
    check on the CPU request and the node-level eviction check is rejected as
    forbidden, the category a caller retries on, when the disks of the stored
    node are not in sync: the numbers of disk specs and of disk statuses
    differ, or some disk spec has no status entry. *)
Theorem Update_unsynced_disks_forbidden ds lib oldNode newNode :
  ¬ removesOnlyLonghornFinalizer oldNode newNode →
  0 ≤ NodeSpec.InstanceManagerCPURequest (Node.Spec newNode) →
  ¬ (NodeSpec.EvictionRequested (Node.Spec newNode) = true ∧
     NodeSpec.AllowScheduling (Node.Spec newNode) = true) →
  (size (NodeSpec.Disks (Node.Spec oldNode))
     ≠ size (NodeStatus.DiskStatus (Node.Status oldNode)) ∨
   ∃ name, is_Some (NodeSpec.Disks (Node.Spec oldNode) !! name) ∧
           NodeStatus.DiskStatus (Node.Status oldNode) !! name = None) →
  verdict (Update ds lib (NodeObject oldNode) (NodeObject newNode)) =
    Reject {| category := Forbidden; reason := DisksBeingSynced (Node.Name oldNode) |}.
Proof.
  intros Hfin Hcpu Hev Hsync%isNodeDiskSpecAndStatusSynced_false.
  rewrite verdict_Update, bool_decide_eq_false_2 by done.
  apply verdict_outcome. unfold updateRules, rulesBeforeCPUReservation.
  rewrite !bind_assoc.
  rewrite outcome_bind_passes by by apply passes_validateCPURequest.
  rewrite outcome_bind_passes.
  2: { apply passes_validateNodeEviction, andb_false_iff.
       destruct (NodeSpec.EvictionRequested (Node.Spec newNode)),
                (NodeSpec.AllowScheduling (Node.Spec newNode)); auto.
       by destruct Hev. }
  apply outcome_bind_returns. unfold validateDiskSync. by rewrite Hsync.
Qed.

(** C3. An update whose only change is that the longhorn.io finalizer is
    dropped from a node under deletion is accepted at once: nil is returned
    before any rule is evaluated and before anything is read. *)
Theorem Update_finalizer_removal_accepted ds lib oldNode newNode :
  removesOnlyLonghornFinalizer oldNode newNode →
  Update ds lib (NodeObject oldNode) (NodeObject newNode) = Step [] (inl Accept).
Proof.
  intros Hfin. unfold Update, IsRemovingLonghornFinalizer, mbind, M_bind. simpl.
  by rewrite bool_decide_eq_true_2.
Qed.




(** C7. Once the rules before it have passed, the removal of a disk from the
    spec is rejected when the disk was schedulable or its last known status
    still had storage scheduled; otherwise the removal rule lets that disk
    go. *)
Theorem Update_disk_removal ds lib oldNode newNode name disk :
  ¬ removesOnlyLonghornFinalizer oldNode newNode →
  passes (rulesBeforeDeleteDisks ds lib oldNode newNode) →
  NodeSpec.Disks (Node.Spec oldNode) !! name = Some disk →
  NodeSpec.Disks (Node.Spec newNode) !! name = None →
  ∃ status,
    NodeStatus.DiskStatus (Node.Status oldNode) !! name = Some status ∧
    (DiskSpec.AllowScheduling disk = true ∨ DiskStatus.StorageScheduled status ≠ 0 →
     ∃ removed path,
       verdict (Update ds lib (NodeObject oldNode) (NodeObject newNode)) =
         NewInvalidError (DeleteDiskNotAllowed removed path)) ∧
    (DiskSpec.AllowScheduling disk = false ∧ DiskStatus.StorageScheduled status = 0 →
     passes (deleteDisk oldNode newNode name disk)).
Proof.
  intros Hfin Hpre Hold Hnew.
  assert (isNodeDiskSpecAndStatusSynced oldNode = true) as Hsync.
  { apply passes_rulesBeforeDeleteDisks in Hpre as [Hb _].
    by eapply rulesBeforeCPUReservation_synced. }
  destruct (synced_status oldNode name disk Hsync Hold) as [status Hst].
  exists status. split; [done|].
  pose proof (deleteDisk_removed oldNode newNode name disk status Hnew Hst) as Hbody.
  split.
  - intros Hunsafe.
    assert (DiskSpec.AllowScheduling disk
            || bool_decide (DiskStatus.StorageScheduled status ≠ 0) = true) as Hc.
    { destruct Hunsafe as [->|Hs]; [done|].
      rewrite (bool_decide_eq_true_2 _ Hs). apply orb_true_r. }
    rewrite Hc in Hbody.
    destruct (passes_or_returns (validateDeleteDisks oldNode newNode)) as [Hp|[v Hv]].
    { rewrite passes_validateDeleteDisks in Hp. specialize (Hp name disk Hold).
      unfold passes in Hp. congruence. }
    pose proof Hv as Hv'. apply range_returns in Hv' as (k & x & Hk & Hx).
    apply deleteDisk_returns in Hx as (-> & _); [|by eapply synced_status].
    exists k, (DiskSpec.Path x).
    rewrite verdict_Update, bool_decide_eq_false_2 by done.
    apply verdict_outcome. rewrite updateRules_after_prefix by done.
    by apply outcome_bind_returns.
  - intros [Ha Hs]. unfold passes. rewrite Hbody, Ha. simpl.
    by rewrite bool_decide_eq_false_2 by (by intros []).
Qed.

(** C8. The removal rule never reads the scheduled storage of a disk through
    an absent status: whenever the rules before it pass, every disk of the
    old spec has a status entry, and no call of [Update] ends in a nil
    dereference. *)
Theorem Update_disk_status_lookup_safe ds lib :
  (∀ oldNode newNode name disk,
     passes (rulesBeforeDeleteDisks ds lib oldNode newNode) →
     NodeSpec.Disks (Node.Spec oldNode) !! name = Some disk →
     is_Some (NodeStatus.DiskStatus (Node.Status oldNode) !! name)) ∧
  (∀ oldObj newObj, verdict (Update ds lib oldObj newObj) ≠ NilDereference).
Proof.
  split.
  - intros oldNode newNode name disk [Hb _]%passes_rulesBeforeDeleteDisks Hold.
    eapply synced_status; [|done]. by eapply rulesBeforeCPUReservation_synced.
  - intros oldObj newObj.
    destruct (Update_accepts_or_rejects ds lib oldObj newObj) as [->|[e ->]]; discriminate.
Qed.

Ltac returns_auto :=
  unfold updateRules, Create; unfold_rules; repeat returns_step;
  intros; unfold NewInvalidError, NewForbiddenError in *; simpl in *;
  simplify_eq; eauto.

(** The node-level eviction error is only built when the new node is both
    evicting and schedulable. *)
Lemma updateRules_node_eviction ds lib oldNode newNode node :
  verdict (updateRules ds lib oldNode newNode) =
    NewInvalidError (NodeEvictionNeedsSchedulingDisabled node) →
  NodeSpec.EvictionRequested (Node.Spec newNode)
  && NodeSpec.AllowScheduling (Node.Spec newNode) = true.
Proof.
  apply (verdict_returnsOnly
    (λ v, v = NewInvalidError (NodeEvictionNeedsSchedulingDisabled node) → _)).
  returns_auto.
Qed.

(** The disk-level eviction error names a disk of the new spec that is both
    evicting and schedulable. *)
Lemma updateRules_disk_eviction ds lib oldNode newNode diskName :
  verdict (updateRules ds lib oldNode newNode) =
    NewInvalidError (DiskEvictionNeedsSchedulingDisabled diskName) →
  ∃ diskSpec,
    NodeSpec.Disks (Node.Spec newNode) !! diskName = Some diskSpec ∧
    DiskSpec.EvictionRequested diskSpec && DiskSpec.AllowScheduling diskSpec = true.
Proof.
  apply (verdict_returnsOnly
    (λ v, v = NewInvalidError (DiskEvictionNeedsSchedulingDisabled diskName) → _)).
  returns_auto.
Qed.

(** The block device error is only built when the flag was read as disabled. *)
Lemma updateRules_block_device ds lib oldNode newNode node name path :
  verdict (updateRules ds lib oldNode newNode) =
    NewInvalidError (BlockDeviceWithoutSPDK node name path) →
  GetSettingAsBool ds SettingNameV2DataEngine = Ok false.
Proof.
  apply (verdict_returnsOnly
    (λ v, v = NewInvalidError (BlockDeviceWithoutSPDK node name path) → _)).
  returns_auto.
  match goal with H : negb ?b = true |- _ => destruct b; [done|] end.
  destruct (GetSettingAsBool ds SettingNameV2DataEngine); by simplify_eq/=.
Qed.

Lemma Create_block_device ds node name type :
  verdict (Create ds (NodeObject node)) =
    NewInvalidError (DiskTypeNotSupported name type) →
  GetSettingAsBool ds SettingNameV2DataEngine = Ok false.
Proof.
  apply (verdict_returnsOnly
    (λ v, v = NewInvalidError (DiskTypeNotSupported name type) → _)).
  returns_auto.
  match goal with H : negb ?b = true |- _ => destruct b; [done|] end.
  destruct (GetSettingAsBool ds SettingNameV2DataEngine); by simplify_eq/=.
Qed.

Lemma createDisk_block_disabled name disk :
  DiskSpec.Type' disk = DiskTypeBlock → ¬ passes (createDisk false name disk).
Proof.
  intros Hblock. unfold createDisk. simpl.
  rewrite !passes_bind, !passes_returnIf.
  intros (Hb & _). by apply bool_decide_eq_false in Hb.
Qed.

Lemma Create_block_disabled ds node name disk :
  NodeSpec.Disks (Node.Spec node) !! name = Some disk →
  DiskSpec.Type' disk = DiskTypeBlock →
  GetSettingAsBool ds SettingNameV2DataEngine = Ok false →
  rejected (verdict (Create ds (NodeObject node))).
Proof.
  intros Hd Hblock Hflag. unfold verdict, Create. rewrite !outcome_bind. simpl.
  case_bool_decide; simpl; [auto|].
  rewrite Hflag. simpl. rewrite !outcome_bind.
  destruct (passes_or_returns
              (range (NodeSpec.Disks (Node.Spec node)) (createDisk false))) as [Hp|[v Hv]].
  - rewrite passes_range in Hp. exfalso.
    by apply (createDisk_block_disabled name disk Hblock), (Hp name disk).
  - rewrite Hv.
    apply range_returns in Hv as (k & x & _ & Hx). revert v Hx.
    fold (returnsOnly rejected (createDisk false k x)).
    unfold createDisk. repeat returns_step; auto.
Qed.

Lemma updateRules_block_disabled ds lib oldNode newNode name disk :
  NodeSpec.Disks (Node.Spec newNode) !! name = Some disk →
  DiskSpec.Type' disk = DiskTypeBlock →
  GetSettingAsBool ds SettingNameV2DataEngine = Ok false →
  rejected (verdict (updateRules ds lib oldNode newNode)).
Proof.
  intros Hd Hblock Hflag.
  destruct (updateRules_verdict ds lib oldNode newNode)
    as [(_ & _ & _ & Ha)|[Hr _]]; [|done].
  apply passes_rulesAfterCPUReservation in Ha as (_ & _ & Hv & _).
  apply passes_validateDisks in Hv as (b & Hb & Hall).
  rewrite Hflag in Hb. injection Hb as <-.
  exfalso. by apply (updateDisk_block_disabled lib newNode name disk Hblock), (Hall name disk).
Qed.

(** C9. An update that is not a pure finalizer removal is rejected when the
    new node, or a disk of the new spec, is both evicting and schedulable;
    with either field of a pair false, the error of that pair is not
    returned. *)
Theorem Update_eviction_excludes_scheduling ds lib oldNode newNode :
  ¬ removesOnlyLonghornFinalizer oldNode newNode →
  let result := verdict (Update ds lib (NodeObject oldNode) (NodeObject newNode)) in
  ((NodeSpec.EvictionRequested (Node.Spec newNode) = true ∧
    NodeSpec.AllowScheduling (Node.Spec newNode) = true) ∨
   (∃ diskName diskSpec,
      NodeSpec.Disks (Node.Spec newNode) !! diskName = Some diskSpec ∧
      DiskSpec.EvictionRequested diskSpec = true ∧
      DiskSpec.AllowScheduling diskSpec = true) →
   rejected result) ∧
  (NodeSpec.EvictionRequested (Node.Spec newNode) = false ∨
   NodeSpec.AllowScheduling (Node.Spec newNode) = false →
   ∀ node, result ≠ NewInvalidError (NodeEvictionNeedsSchedulingDisabled node)) ∧
  (∀ diskName diskSpec,
     NodeSpec.Disks (Node.Spec newNode) !! diskName = Some diskSpec →
     DiskSpec.EvictionRequested diskSpec = false ∨
     DiskSpec.AllowScheduling diskSpec = false →
     result ≠ NewInvalidError (DiskEvictionNeedsSchedulingDisabled diskName)).
Proof.
  intros Hfin result. subst result.
  rewrite verdict_Update, bool_decide_eq_false_2 by done.
  split; [|split].
  - intros Hboth.
    destruct (updateRules_verdict ds lib oldNode newNode)
      as [(_ & Hb & _ & Ha)|[Hr _]]; [|done].
    exfalso. destruct Hboth as [[He Hs]|(diskName & diskSpec & Hd & He & Hs)].
    + apply passes_rulesBeforeCPUReservation in Hb as (_ & Hn & _).
      apply passes_validateNodeEviction in Hn. by rewrite He, Hs in Hn.
    + apply passes_rulesAfterCPUReservation in Ha as (_ & Hde & _).
      rewrite passes_validateDiskEviction in Hde.
      specialize (Hde diskName diskSpec Hd). by rewrite He, Hs in Hde.
  - intros Hoff node Hv. apply updateRules_node_eviction in Hv.
    apply andb_true_iff in Hv as [He Hs]. destruct Hoff; congruence.
  - intros diskName diskSpec Hd Hoff Hv.
    apply updateRules_disk_eviction in Hv as (diskSpec' & Hd' & Hboth).
    assert (diskSpec' = diskSpec) as -> by congruence.
    apply andb_true_iff in Hboth as [He Hs]. destruct Hoff; congruence.
Qed.

(** C10 as amended. With the v2 data engine flag read as disabled, a node
    proposed with a disk of type block is rejected by [Create], and by
    [Update] unless the update is a pure finalizer removal; with the flag
    read as enabled, neither returns its block device error. *)
Theorem block_disk_requires_v2_data_engine ds lib oldNode newNode name disk :
  NodeSpec.Disks (Node.Spec newNode) !! name = Some disk →
  DiskSpec.Type' disk = DiskTypeBlock →
  (GetSettingAsBool ds SettingNameV2DataEngine = Ok false →
   rejected (verdict (Create ds (NodeObject newNode))) ∧
   (¬ removesOnlyLonghornFinalizer oldNode newNode →
    rejected (verdict (Update ds lib (NodeObject oldNode) (NodeObject newNode))))) ∧
  (GetSettingAsBool ds SettingNameV2DataEngine = Ok true →
   (∀ diskName type,
      verdict (Create ds (NodeObject newNode))
      ≠ NewInvalidError (DiskTypeNotSupported diskName type)) ∧
   (∀ node diskName path,
      verdict (Update ds lib (NodeObject oldNode) (NodeObject newNode))
      ≠ NewInvalidError (BlockDeviceWithoutSPDK node diskName path))).
Proof.
  intros Hd Hblock. split.
  - intros Hflag. split; [by eapply Create_block_disabled|].
    intros Hfin. rewrite verdict_Update, bool_decide_eq_false_2 by done.
    by eapply updateRules_block_disabled.
  - intros Hflag. split.
    + intros diskName type Hv%Create_block_device. congruence.
    + intros node diskName path. rewrite verdict_Update.
      case_bool_decide; [discriminate|].
      intros Hv%updateRules_block_device. congruence.
Qed.

(** ** The CPU reservation check when the Kubernetes node is gone *)

Lemma validateCPUReservation_not_found ds lib oldNode newNode err :
  NodeSpec.InstanceManagerCPURequest (Node.Spec newNode) ≠ 0 →
  GetKubernetesNodeRO ds (Node.Name oldNode) = Err err →
  ErrorIsNotFound err = true →
  validateCPUReservation ds lib oldNode newNode =
    Step [CallGetKubernetesNodeRO (Node.Name oldNode);
          Warnf ("Kubernetes node " +:+ Node.Name oldNode +:+ " has been deleted")]
         (inr tt).
Proof.
  intros Hreq Hget Hnf. unfold validateCPUReservation.
  rewrite bool_decide_eq_true_2 by done.
  unfold mbind, M_bind. simpl. rewrite Hget. simpl. by rewrite Hnf.
Qed.

(** C1 as amended. When a nonzero CPU request reaches the CPU reservation
    check and the Kubernetes node is not found, the check reads nothing more,
    logs a warning and is skipped: neither the guaranteed-CPU setting is read
    nor any percentage validated, and the verdict is that of the rules that
    follow the check. *)
Theorem Update_missing_kubernetes_node_skips_cpu_check ds lib oldNode newNode err :
  NodeSpec.InstanceManagerCPURequest (Node.Spec newNode) ≠ 0 →
  GetKubernetesNodeRO ds (Node.Name oldNode) = Err err →
  ErrorIsNotFound err = true →
  validateCPUReservation ds lib oldNode newNode =
    Step [CallGetKubernetesNodeRO (Node.Name oldNode);
          Warnf ("Kubernetes node " +:+ Node.Name oldNode +:+ " has been deleted")]
         (inr tt) ∧
  (¬ removesOnlyLonghornFinalizer oldNode newNode →
   passes (rulesBeforeCPUReservation lib oldNode newNode) →
   verdict (Update ds lib (NodeObject oldNode) (NodeObject newNode)) =
     verdict (rulesAfterCPUReservation ds lib oldNode newNode ;; return_ Accept)).
Proof.
  intros Hreq Hget Hnf.
  pose proof (validateCPUReservation_not_found ds lib oldNode newNode err Hreq Hget Hnf)
    as Hskip.
  split; [done|]. intros Hfin Hpre.
  rewrite verdict_Update, bool_decide_eq_false_2 by done.
  apply verdict_outcome. unfold updateRules.
  rewrite (outcome_bind_passes _ _ Hpre), outcome_bind_passes.
  - by apply verdict_outcome.
  - unfold passes. by rewrite Hskip.
Qed.

(** ** The claims on sample requests *)

(** A healthy update: the Kubernetes node and the guaranteed-CPU setting are
    read for the CPU reservation check, then the data engine flag. *)
Example Update_healthy_worker :
  Update (Samples.datastoreWithNode false) Samples.library
    (NodeObject (Samples.worker 100)) (NodeObject (Samples.worker 100)) =
  Step [CallGetKubernetesNodeRO "worker-1";
        CallGetSettingWithAutoFillingRO SettingNameGuaranteedInstanceManagerCPU;
        CallGetSettingAsBool SettingNameV2DataEngine]
       (inl Accept).
Proof. reflexivity. Qed.

Example Update_negative_cpu_request :
  verdict (Update (Samples.datastoreWithNode false) Samples.library
             (NodeObject (Samples.worker 0)) (NodeObject (Samples.worker (-1)))) =
  NewInvalidError NegativeCPURequest.
Proof. reflexivity. Qed.

Example Update_not_a_node :
  Update (Samples.datastoreWithNode false) Samples.library
    (NodeObject (Samples.worker 0)) (OtherObject "&Volume{}") =
  Step [] (inl (NewInvalidError (NotALonghornNode "&Volume{}"))).
Proof. reflexivity. Qed.

Example Create_block_disk :
  verdict (Create (Samples.datastoreWithNode false) (NodeObject Samples.blockWorker)) =
    NewInvalidError (DiskTypeNotSupported "disk-1" DiskTypeBlock) ∧
  verdict (Create (Samples.datastoreWithNode true) (NodeObject Samples.blockWorker)) =
    Accept.
Proof. split; reflexivity. Qed.

(** A ready node with two replicas and two engines is not deleted; both
    listings are read first. *)
Example Delete_ready_worker :
  Delete (Samples.datastore false "12" 2)
    (NodeObject (Samples.node (Samples.spec ∅ true false 0)
                   [Samples.ready ConditionStatusTrue ""] ∅)) =
  Step [CallListReplicasByNodeRO "worker-1"; CallListEnginesByNodeRO "worker-1"]
       (inl (NewInvalidError
               (CouldNotDeleteNode "worker-1" ConditionStatusTrue "" true 2 2))).
Proof. reflexivity. Qed.

(** A node that never reported a Ready condition is not deleted either: the
    sentinel condition carries neither of the two reasons. *)
Example Delete_without_ready_condition :
  verdict (Delete (Samples.datastore false "12" 0)
             (NodeObject (Samples.node (Samples.spec ∅ false false 0) [] ∅))) =
  NewInvalidError (CouldNotDeleteNode "worker-1" "" "" false 0 0).
Proof. reflexivity. Qed.

Lemma worker_not_finalizer_removal s c d s' c' d' :
  ¬ removesOnlyLonghornFinalizer (Samples.node s c d) (Samples.node s' c' d').
Proof. intros ([t Ht] & _). discriminate. Defined.

(** With the Kubernetes node gone, a request of 100 millicores passes the CPU
    reservation check with one read and one warning. *)
Lemma Update_missing_kubernetes_node_witness :
  validateCPUReservation (Samples.datastore false "12" 0) Samples.library
    (Samples.worker 100) (Samples.worker 100) =
  Step [CallGetKubernetesNodeRO "worker-1";
        Warnf "Kubernetes node worker-1 has been deleted"] (inr tt).
Proof.
  apply (Update_missing_kubernetes_node_skips_cpu_check
           (Samples.datastore false "12" 0) Samples.library
           (Samples.worker 100) (Samples.worker 100)
           (NotFoundError "node worker-1 not found")).
  - discriminate.
  - reflexivity.
  - reflexivity.
Defined.

(** C1 fails as stated: with the Kubernetes node gone and a default
    percentage that the validator refuses, the check of the spec's
    default-percentage path returns an error, while the source's check
    passes without reading the setting and [Update] accepts. *)
Lemma Update_missing_kubernetes_node_no_default_validation :
  let ds := Samples.datastore false "250" 0 in
  let node := Samples.worker 100 in
  NodeSpec.InstanceManagerCPURequest (Node.Spec node) ≠ 0 ∧
  GetKubernetesNodeRO ds (Node.Name node) = Err (NotFoundError "node worker-1 not found") ∧
  passes (rulesBeforeCPUReservation Samples.library node node) ∧
  outcome (validateCPUReservation_withDefaultPath ds Samples.library node node) =
    inl (NewInvalidError (CPUReservationInvalid (OtherError "value out of range"))) ∧
  outcome (validateCPUReservation ds Samples.library node node) = inr tt ∧
  (CallGetSettingWithAutoFillingRO SettingNameGuaranteedInstanceManagerCPU
     ∉ events (Update ds Samples.library (NodeObject node) (NodeObject node))) ∧
  verdict (Update ds Samples.library (NodeObject node) (NodeObject node)) = Accept.
Proof.
  simpl. repeat split; try reflexivity; try discriminate.
  vm_compute. intros H. repeat (apply elem_of_cons in H as [H|H]; [discriminate|]).
  by apply elem_of_nil in H.
Qed.

Lemma Update_unsynced_disks_witness :
  verdict (Update (Samples.datastore false "12" 0) Samples.library
             (NodeObject Samples.unsyncedWorker) (NodeObject Samples.unsyncedWorker)) =
  Reject {| category := Forbidden; reason := DisksBeingSynced "worker-1" |}.
Proof.
  apply (Update_unsynced_disks_forbidden (Samples.datastore false "12" 0) Samples.library
           Samples.unsyncedWorker Samples.unsyncedWorker).
  - apply worker_not_finalizer_removal.
  - simpl. lia.
  - simpl. intros [[=] _].
  - left. vm_compute. discriminate.
Defined.

(** A finalizer removal is accepted although the node breaks the CPU, the
    eviction, the sync and the block-disk rules. *)
Lemma Update_finalizer_removal_witness :
  Update (Samples.datastore false "12" 0) Samples.library
    (NodeObject (Samples.deleting [longhornFinalizerKey] Samples.brokenWorker))
    (NodeObject (Samples.deleting [] Samples.brokenWorker)) =
  Step [] (inl Accept).
Proof.
  apply Update_finalizer_removal_accepted.
  split; [by eexists|]. split; [apply list_elem_of_here | reflexivity].
Defined.

Lemma Delete_gone_node_witness :
  (verdict (Delete (Samples.datastore false "12" 0) (NodeObject Samples.goneWorker)) = Accept
   ↔ deletable Samples.goneWorker [] []) ∧
  (¬ deletable Samples.goneWorker [] [] →
   rejected (verdict (Delete (Samples.datastore false "12" 0)
                        (NodeObject Samples.goneWorker)))).
Proof.
  apply (Delete_accepts_iff_deletable (Samples.datastore false "12" 0)
           Samples.goneWorker [] []).
  - intros (a & [=] & _).
  - reflexivity.
  - reflexivity.
Defined.

(** The marked node is ready and schedulable and has three replicas and
    three engines; its deletion is accepted all the same. *)
Lemma Delete_uninstalling_witness :
  Delete (Samples.datastore false "12" 3) (NodeObject Samples.uninstalledWorker) =
  Step [] (inl Accept).
Proof.
  apply Delete_uninstalling_accepted.
  exists {[ GetLonghornLabelKey DeleteNodeFromLonghorn := "" ]}.
  split; [reflexivity | by eexists].
Defined.


Lemma Update_disk_removal_witness :
  ∃ status,
    NodeStatus.DiskStatus (Node.Status Samples.loadedWorker) !! "disk-1" = Some status ∧
    (DiskSpec.AllowScheduling Samples.filesystemDisk = true ∨
     DiskStatus.StorageScheduled status ≠ 0 →
     ∃ removed path,
       verdict (Update (Samples.datastore false "12" 0) Samples.library
                  (NodeObject Samples.loadedWorker) (NodeObject Samples.diskless)) =
         NewInvalidError (DeleteDiskNotAllowed removed path)) ∧
    (DiskSpec.AllowScheduling Samples.filesystemDisk = false ∧
     DiskStatus.StorageScheduled status = 0 →
     passes (deleteDisk Samples.loadedWorker Samples.diskless "disk-1"
               Samples.filesystemDisk)).
Proof.
  apply (Update_disk_removal (Samples.datastore false "12" 0) Samples.library
           Samples.loadedWorker Samples.diskless "disk-1" Samples.filesystemDisk).
  - apply worker_not_finalizer_removal.
  - reflexivity.
  - reflexivity.
  - reflexivity.
Defined.

Lemma Update_eviction_witness :
  rejected (verdict (Update (Samples.datastore false "12" 0) Samples.library
                       (NodeObject (Samples.worker 0))
                       (NodeObject Samples.evictingWorker))).
Proof.
  apply (Update_eviction_excludes_scheduling (Samples.datastore false "12" 0)
           Samples.library (Samples.worker 0) Samples.evictingWorker).
  - apply worker_not_finalizer_removal.
  - right. exists "disk-1", (Samples.schedulable (Samples.evicting Samples.filesystemDisk)).
    repeat split.
Defined.

Lemma block_disk_witness :
  rejected (verdict (Create (Samples.datastore false "12" 0)
                       (NodeObject Samples.blockWorker))).
Proof.
  apply (block_disk_requires_v2_data_engine (Samples.datastore false "12" 0)
           Samples.library (Samples.worker 0) Samples.blockWorker "disk-1"
           Samples.blockDisk); reflexivity.
Defined.

(** C10 fails as stated: a finalizer removal on a node with a block disk is
    accepted by [Update] although the v2 data engine flag is disabled. *)
Lemma block_disk_accepted_on_finalizer_removal :
  let ds := Samples.datastore false "12" 0 in
  let oldNode := Samples.deleting [longhornFinalizerKey] Samples.blockWorker in
  let newNode := Samples.deleting [] Samples.blockWorker in
  NodeSpec.Disks (Node.Spec newNode) !! "disk-1" = Some Samples.blockDisk ∧
  DiskSpec.Type' Samples.blockDisk = DiskTypeBlock ∧
  GetSettingAsBool ds SettingNameV2DataEngine = Ok false ∧
  verdict (Update ds Samples.library (NodeObject oldNode) (NodeObject newNode)) = Accept ∧
  ¬ rejected (verdict (Update ds Samples.library (NodeObject oldNode) (NodeObject newNode))).
Proof.
  simpl. repeat split; try reflexivity. intros [e He]. vm_compute in He. discriminate.
Qed.

(** Without the sync rule before it, the removal loop does read through an
    absent status: on the unsynced node, with its disk taken out of the spec,
    the loop alone ends in a nil dereference, and [Update] in the forbidden
    error. *)
Example validateDeleteDisks_unsynced :
  outcome (validateDeleteDisks Samples.unsyncedWorker Samples.diskless) = inl NilDereference ∧
  verdict (Update (Samples.datastore false "12" 0) Samples.library
             (NodeObject Samples.unsyncedWorker) (NodeObject Samples.diskless)) =
    NewForbiddenError (DisksBeingSynced "worker-1").
Proof. split; reflexivity. Qed.

(** ** Further properties: disk sync *)

Lemma synced_iff_dom node :
  isNodeDiskSpecAndStatusSynced node = true ↔
  dom (NodeSpec.Disks (Node.Spec node)) = dom (NodeStatus.DiskStatus (Node.Status node)).
Proof.
  rewrite isNodeDiskSpecAndStatusSynced_true. split.
  - intros [Hsize Hsub]. apply set_subseteq_size_eq.
    + intros name Hn. apply elem_of_dom. apply Hsub. by apply elem_of_dom.
    + rewrite !size_dom. lia.
  - intros Hdom. split.
    + by rewrite <- !(size_dom (D := gset string)), Hdom.
    + intros name Hn. apply elem_of_dom. rewrite <- Hdom. by apply elem_of_dom.
Qed.

(** X1. The disks of a node are in sync exactly when the disk specs and the
    disk statuses have the same names: a status without a spec breaks the
    sync as a spec without a status does. *)
Theorem isNodeDiskSpecAndStatusSynced_same_names node :
  isNodeDiskSpecAndStatusSynced node = true ↔
  dom (NodeSpec.Disks (Node.Spec node)) = dom (NodeStatus.DiskStatus (Node.Status node)).
Proof. apply synced_iff_dom. Qed.

(** ** Further properties: events *)

Lemma events_bind {A B} (m : M A) (f : A → M B) :
  events (m ≫= f) =
    match outcome m with
    | inl _ => events m
    | inr a => events m ++ events (f a)
    end.
Proof. unfold mbind, M_bind. by destruct (outcome m). Qed.

Lemma events_returnIf c v : events (returnIf c v) = [].
Proof. by destruct c. Qed.

Lemma events_silent_bind {A B} (m : M A) (f : A → M B) :
  events m = [] → (∀ a, events (f a) = []) → events (m ≫= f) = [].
Proof.
  intros Hm Hf. rewrite events_bind, Hm. destruct (outcome m); [done|]. apply Hf.
Qed.

Lemma events_silent_forEach {A} (l : list A) (body : A → M unit) :
  (∀ x, events (body x) = []) → events (forEach l body) = [].
Proof.
  intros H. induction l as [|x l IH]; simpl; [done|]. by apply events_silent_bind.
Qed.

Lemma events_silent_range {V} (m : gmap string V) (body : string → V → M unit) :
  (∀ k x, events (body k x) = []) → events (range m body) = [].
Proof. intros H. apply events_silent_forEach. intros [k x]. apply H. Qed.

Ltac silent :=
  repeat first
    [ apply events_silent_bind; [|intros ?]
    | apply events_silent_range; intros ? ?
    | apply events_returnIf
    | reflexivity
    | match goal with |- events (match ?x with _ => _ end) = [] => destruct x end ].

Lemma events_createDisk b name disk : events (createDisk b name disk) = [].
Proof. unfold createDisk. silent. Qed.

Lemma events_updateDisk lib b newNode name disk :
  events (updateDisk lib b newNode name disk) = [].
Proof. unfold updateDisk. silent. Qed.

Lemma events_rulesBeforeCPUReservation lib oldNode newNode :
  events (rulesBeforeCPUReservation lib oldNode newNode) = [].
Proof. unfold_rules. silent. Qed.

Lemma events_validateSpecName newNode : events (validateSpecName newNode) = [].
Proof. unfold_rules. silent. Qed.

Lemma events_validateDiskEviction newNode : events (validateDiskEviction newNode) = [].
Proof. unfold_rules. silent. Qed.

Lemma events_validateDiskTypeChange oldNode newNode :
  events (validateDiskTypeChange oldNode newNode) = [].
Proof. unfold_rules. silent. Qed.

(** ** Further properties: Create *)

Lemma passes_createDisk b name disk :
  passes (createDisk b name disk) ↔ createAdmissible b disk.
Proof.
  unfold createDisk, createAdmissible. rewrite passes_bind.
  destruct b; simpl; case_bool_decide as Ht; rewrite ?passes_returnIf;
    repeat case_bool_decide; unfold passes; simpl; naive_solver.
Qed.

Lemma createDisk_rejects b name disk : returnsOnly rejected (createDisk b name disk).
Proof. unfold createDisk. repeat returns_step; auto. Qed.

Lemma Create_accepts ds node :
  verdict (Create ds (NodeObject node)) = Accept ↔
  0 ≤ NodeSpec.InstanceManagerCPURequest (Node.Spec node) ∧
  ∃ v2DataEngineEnabled,
    GetSettingAsBool ds SettingNameV2DataEngine = Ok v2DataEngineEnabled ∧
    ∀ name disk,
      NodeSpec.Disks (Node.Spec node) !! name = Some disk →
      createAdmissible v2DataEngineEnabled disk.
Proof.
  unfold verdict, Create. rewrite !outcome_bind. simpl.
  case_bool_decide as Hcpu; simpl.
  { split; [discriminate|]. intros [? _]. lia. }
  destruct (GetSettingAsBool ds SettingNameV2DataEngine) as [b|err]; simpl.
  2: { split; [discriminate|]. intros (_ & b & [=] & _). }
  rewrite !outcome_bind.
  destruct (passes_or_returns (range (NodeSpec.Disks (Node.Spec node)) (createDisk b)))
    as [Hp|[v Hv]].
  - rewrite Hp. simpl. split; [|done]. intros _. split; [lia|]. exists b. split; [done|].
    intros name disk Hd. rewrite passes_range in Hp. by eapply passes_createDisk, Hp.
  - rewrite Hv. split.
    + intros [= ->]. apply range_returns in Hv as (k & x & _ & Hx).
      by destruct (createDisk_rejects _ _ _ _ Hx).
    + intros (_ & b' & [= <-] & Hall). exfalso.
      eapply passes_not_returns; [|done]. apply passes_range.
      intros k x Hk. by eapply passes_createDisk, Hall.
Qed.

(** X2. [Create] accepts a node exactly when its CPU request is not
    negative, the v2 data engine flag can be read, no disk is a block device
    while the flag is disabled, and only block devices name a disk driver. *)
Theorem Create_accepts_iff ds node :
  verdict (Create ds (NodeObject node)) = Accept ↔
  0 ≤ NodeSpec.InstanceManagerCPURequest (Node.Spec node) ∧
  ∃ v2DataEngineEnabled,
    GetSettingAsBool ds SettingNameV2DataEngine = Ok v2DataEngineEnabled ∧
    ∀ name disk,
      NodeSpec.Disks (Node.Spec node) !! name = Some disk →
      createAdmissible v2DataEngineEnabled disk.
Proof. apply Create_accepts. Qed.

(** X3. [Create] logs nothing and reads the datastore at most once: the v2
    data engine flag, and only after the sign check on the CPU request has
    passed.  An object that is not a node is refused without any read. *)
Theorem Create_events ds newObj :
  events (Create ds newObj) =
    match newObj with
    | NodeObject node =>
        if bool_decide (NodeSpec.InstanceManagerCPURequest (Node.Spec node) < 0)
        then []
        else [CallGetSettingAsBool SettingNameV2DataEngine]
    | OtherObject _ => []
    end.
Proof.
  destruct newObj as [node|printed]; [|done].
  unfold Create, mbind, M_bind. simpl.
  case_bool_decide; simpl; [done|].
  destruct (GetSettingAsBool ds SettingNameV2DataEngine) as [b|err]; simpl; [|done].
  pose proof (events_silent_range (NodeSpec.Disks (Node.Spec node)) (createDisk b)
                (events_createDisk b)) as Hsilent.
  destruct (outcome (range (NodeSpec.Disks (Node.Spec node)) (createDisk b)));
    simpl; by rewrite Hsilent.
Qed.

(** ** Further properties: when an update is accepted *)

Lemma passes_updateDisk lib b newNode name disk :
  passes (updateDisk lib b newNode name disk) ↔ updateAdmissible lib b disk.
Proof.
  unfold updateDisk, updateAdmissible, createAdmissible.
  rewrite !passes_bind, passes_returnIf, bool_decide_eq_false.
  assert (passes match ValidateTags lib (DiskSpec.Tags disk) with
                 | Ok _ => mret ()
                 | Err err => return_ (NewInvalidError (DiskTagsInvalid err))
                 end ↔ ∃ tags, ValidateTags lib (DiskSpec.Tags disk) = Ok tags) as ->.
  { destruct (ValidateTags lib (DiskSpec.Tags disk)) as [t|err]; unfold passes; simpl.
    - split; eauto.
    - split; [discriminate|]. intros [t [=]]. }
  destruct b; simpl; case_bool_decide as Ht; rewrite ?passes_returnIf;
    repeat case_bool_decide; unfold passes; simpl; naive_solver lia.
Qed.

Lemma passes_validateNodeTags lib newNode :
  passes (validateNodeTags lib newNode) ↔
  ∃ tags, ValidateTags lib (NodeSpec.Tags (Node.Spec newNode)) = Ok tags.
Proof.
  unfold validateNodeTags, passes.
  destruct (ValidateTags lib (NodeSpec.Tags (Node.Spec newNode))) as [t|err]; simpl.
  - split; eauto.
  - split; [discriminate|]. intros [t [=]].
Qed.

Lemma passes_validateSpecName newNode :
  passes (validateSpecName newNode) ↔ NodeSpec.Name (Node.Spec newNode) ≠ "".
Proof. unfold validateSpecName. by rewrite passes_returnIf, bool_decide_eq_false. Qed.

(** The CPU reservation check once the Kubernetes node has been read. *)
Lemma validateCPUReservation_node_found ds lib oldNode newNode kubeNode :
  0 < NodeSpec.InstanceManagerCPURequest (Node.Spec newNode) →
  GetKubernetesNodeRO ds (Node.Name oldNode) = Ok kubeNode →
  outcome (validateCPUReservation ds lib oldNode newNode) =
    match GetSettingWithAutoFillingRO ds SettingNameGuaranteedInstanceManagerCPU with
    | Err err => inl (NewInvalidError (GetCPUSettingFailed err))
    | Ok _ =>
        match ValidateCPUReservationValues lib SettingNameGuaranteedInstanceManagerCPU
                (FormatCPUPercentage lib
                   (NodeSpec.InstanceManagerCPURequest (Node.Spec newNode))
                   (AllocatableCPUMilliValue kubeNode)) with
        | Some err => inl (NewInvalidError (CPUReservationInvalid err))
        | None => inr tt
        end
    end.
Proof.
  intros Hreq Hget. unfold validateCPUReservation.
  rewrite bool_decide_eq_true_2 by lia.
  unfold mbind, M_bind. simpl. rewrite Hget. simpl.
  destruct (GetSettingWithAutoFillingRO ds SettingNameGuaranteedInstanceManagerCPU)
    as [setting|err]; simpl; [|done].
  rewrite bool_decide_eq_true_2 by lia.
  by destruct (ValidateCPUReservationValues _ _ _).
Qed.

Lemma validateCPUReservation_read_failed ds lib oldNode newNode err :
  NodeSpec.InstanceManagerCPURequest (Node.Spec newNode) ≠ 0 →
  GetKubernetesNodeRO ds (Node.Name oldNode) = Err err →
  ErrorIsNotFound err = false →
  validateCPUReservation ds lib oldNode newNode =
    Step [CallGetKubernetesNodeRO (Node.Name oldNode)]
         (inl (NewInvalidError (GetKubernetesNodeFailed err))).
Proof.
  intros Hreq Hget Hnf. unfold validateCPUReservation.
  rewrite bool_decide_eq_true_2 by done.
  unfold mbind, M_bind. simpl. rewrite Hget. simpl. by rewrite Hnf.
Qed.

Lemma passes_validateCPUReservation ds lib oldNode newNode :
  0 ≤ NodeSpec.InstanceManagerCPURequest (Node.Spec newNode) →
  passes (validateCPUReservation ds lib oldNode newNode) ↔
  cpuReservationAdmissible ds lib oldNode newNode.
Proof.
  intros Hcpu. unfold cpuReservationAdmissible.
  destruct (decide (NodeSpec.InstanceManagerCPURequest (Node.Spec newNode) = 0)) as [Hz|Hnz].
  { unfold validateCPUReservation. rewrite bool_decide_eq_false_2 by (by intros []).
    split; [by left | done]. }
  destruct (GetKubernetesNodeRO ds (Node.Name oldNode)) as [kubeNode|err] eqn:Hget.
  - unfold passes. rewrite (validateCPUReservation_node_found _ _ _ _ kubeNode) by (lia || done).
    destruct (GetSettingWithAutoFillingRO ds SettingNameGuaranteedInstanceManagerCPU)
      as [setting|err].
    + destruct (ValidateCPUReservationValues _ _ _) eqn:Hv.
      * split; [discriminate|]. intros [?|[(? & [=] & _)|(k & s & [= <-] & _ & Hv')]];
          [done | congruence].
      * split; [|done]. intros _. right. right. eauto.
    + split; [discriminate|].
      intros [?|[(? & [=] & _)|(k & s & _ & [=] & _)]]. done.
  - destruct (ErrorIsNotFound err) eqn:Hnf.
    + rewrite (validateCPUReservation_not_found _ _ _ _ err) by done.
      split; [|done]. intros _. right. left. eauto.
    + rewrite (validateCPUReservation_read_failed _ _ _ _ err) by done.
      split; [discriminate|].
      intros [?|[(e & [= <-] & Hnf')|(k & s & [=] & _)]]; [done | congruence].
Qed.

Lemma passes_deleteDisks_safe oldNode newNode :
  isNodeDiskSpecAndStatusSynced oldNode = true →
  passes (validateDeleteDisks oldNode newNode) ↔ removalSafe oldNode newNode.
Proof.
  intros Hsync. rewrite passes_validateDeleteDisks. unfold removalSafe. split.
  - intros H name disk Hold Hnew. specialize (H name disk Hold).
    destruct (synced_status oldNode name disk Hsync Hold) as [status Hst].
    unfold passes in H. rewrite (deleteDisk_removed _ _ _ _ status) in H by done.
    destruct (DiskSpec.AllowScheduling disk); simpl in H; [discriminate|].
    case_bool_decide as Hs; [discriminate|]. split; [done|].
    intros status' Hst'. assert (status' = status) as -> by congruence.
    lia.
  - intros H name disk Hold.
    destruct (NodeSpec.Disks (Node.Spec newNode) !! name) as [d|] eqn:Hnew.
    { by rewrite deleteDisk_kept by eauto. }
    destruct (synced_status oldNode name disk Hsync Hold) as [status Hst].
    destruct (H name disk Hold Hnew) as [Ha Hs].
    unfold passes. rewrite (deleteDisk_removed _ _ _ _ status) by done.
    rewrite Ha. simpl. rewrite bool_decide_eq_false_2; [done|].
    intros Hne. apply Hne. by apply Hs.
Qed.

Lemma updateRules_accepts_passes ds lib oldNode newNode :
  verdict (updateRules ds lib oldNode newNode) = Accept ↔
  passes (rulesBeforeCPUReservation lib oldNode newNode) ∧
  passes (validateCPUReservation ds lib oldNode newNode) ∧
  passes (rulesAfterCPUReservation ds lib oldNode newNode).
Proof.
  destruct (updateRules_verdict ds lib oldNode newNode) as [[Hv Hp]|[[e He] Hn]].
  - done.
  - split; [congruence | done].
Qed.

Lemma updateRules_accepts ds lib oldNode newNode :
  verdict (updateRules ds lib oldNode newNode) = Accept ↔
  updateAcceptable ds lib oldNode newNode.
Proof.
  rewrite updateRules_accepts_passes. unfold updateAcceptable.
  rewrite passes_rulesBeforeCPUReservation, passes_rulesAfterCPUReservation.
  rewrite passes_validateCPURequest, passes_validateNodeEviction, passes_validateDiskSync,
    passes_validateNodeTags, passes_validateSpecName, passes_validateDiskEviction,
    passes_validateDisks, passes_validateDiskTypeChange, synced_iff_dom.
  setoid_rewrite passes_updateDisk.
  assert (NodeSpec.EvictionRequested (Node.Spec newNode)
          && NodeSpec.AllowScheduling (Node.Spec newNode) = false ↔
          ¬ (NodeSpec.EvictionRequested (Node.Spec newNode) = true ∧
             NodeSpec.AllowScheduling (Node.Spec newNode) = true)) as ->.
  { destruct (NodeSpec.EvictionRequested _), (NodeSpec.AllowScheduling _); naive_solver. }
  assert (∀ disk, DiskSpec.EvictionRequested disk && DiskSpec.AllowScheduling disk = false ↔
                  ¬ (DiskSpec.EvictionRequested disk = true ∧
                     DiskSpec.AllowScheduling disk = true)) as Hpair.
  { intros disk.
    destruct (DiskSpec.EvictionRequested _), (DiskSpec.AllowScheduling _); naive_solver. }
  setoid_rewrite Hpair. fold (typesKept oldNode newNode). split.
  - intros ((Hcpu & Hev & Hsync & Htags) & Hres & Hname & Hdev & (b & Hb & Hd) & Hdel & Hty).
    split_and!; try done.
    + by apply passes_validateCPUReservation.
    + exists b. split; [done|]. intros name disk Hn. split; [by eapply Hdev | by eapply Hd].
    + apply (proj2 (synced_iff_dom oldNode)) in Hsync.
      by apply (proj1 (passes_deleteDisks_safe oldNode newNode Hsync)).
  - intros (Hcpu & Hev & Hsync & Htags & Hres & Hname & (b & Hb & Hd) & Hdel & Hty).
    split_and!; try done.
    + by apply passes_validateCPUReservation.
    + intros name disk Hn. by eapply Hd.
    + exists b. split; [done|]. intros name disk Hn. by eapply Hd.
    + apply (proj2 (synced_iff_dom oldNode)) in Hsync.
      by apply (proj2 (passes_deleteDisks_safe oldNode newNode Hsync)).
Qed.

Lemma no_change_not_finalizer_removal node :
  ¬ removesOnlyLonghornFinalizer node node.
Proof.
  intros (_ & Hin & Heq).
  assert (Node.Finalizers node
          = filter (λ f, f ≠ longhornFinalizerKey) (Node.Finalizers node)) as Hf.
  { by rewrite Heq at 1. }
  rewrite Hf in Hin. apply list_elem_of_filter in Hin as [Hne _]. done.
Qed.

(** X4. An update that is not a pure finalizer removal is accepted exactly
    when all rules of lines 100-206 hold: CPU request not negative, node and
    disks not both evicting and schedulable, disks of the stored node in
    sync, tags valid, CPU reservation admissible, spec name not empty, v2
    flag readable, every disk admissible, removed disks drained, disk types
    kept. *)
Theorem Update_accepts_iff ds lib oldNode newNode :
  ¬ removesOnlyLonghornFinalizer oldNode newNode →
  verdict (Update ds lib (NodeObject oldNode) (NodeObject newNode)) = Accept ↔
  updateAcceptable ds lib oldNode newNode.
Proof.
  intros Hfin. rewrite verdict_Update, bool_decide_eq_false_2 by done.
  apply updateRules_accepts.
Qed.

(** X5. A node that [Update] accepts, other than by a pure finalizer
    removal, is a node that [Create] accepts from the same datastore: the
    update rules include the create rules. *)
Theorem Update_accepted_then_Create_accepted ds lib oldNode newNode :
  ¬ removesOnlyLonghornFinalizer oldNode newNode →
  verdict (Update ds lib (NodeObject oldNode) (NodeObject newNode)) = Accept →
  verdict (Create ds (NodeObject newNode)) = Accept.
Proof.
  intros Hfin. rewrite verdict_Update, bool_decide_eq_false_2 by done.
  intros (Hcpu & _ & _ & _ & _ & _ & (b & Hb & Hd) & _)%updateRules_accepts.
  apply Create_accepts. split; [done|]. exists b. split; [done|].
  intros name disk Hn. by destruct (Hd name disk Hn) as (_ & _ & _ & Hc).
Qed.

(** X6. An accepted object can be submitted again: when [Update] has
    accepted the change from the old to the new node, other than by a pure
    finalizer removal, the node kept its name and its disks are in sync, the
    update from the new node to itself is accepted too. *)
Theorem Update_accepted_then_resubmission_accepted ds lib oldNode newNode :
  ¬ removesOnlyLonghornFinalizer oldNode newNode →
  verdict (Update ds lib (NodeObject oldNode) (NodeObject newNode)) = Accept →
  Node.Name newNode = Node.Name oldNode →
  isNodeDiskSpecAndStatusSynced newNode = true →
  verdict (Update ds lib (NodeObject newNode) (NodeObject newNode)) = Accept.
Proof.
  intros Hfin Hacc Hname Hsync.
  rewrite verdict_Update, bool_decide_eq_false_2 in Hacc by done.
  rewrite verdict_Update, bool_decide_eq_false_2 by apply no_change_not_finalizer_removal.
  apply updateRules_accepts in Hacc
    as (Hcpu & Hev & _ & Htags & Hres & Hn & Hd & _ & _).
  apply updateRules_accepts. unfold updateAcceptable. split_and!; try done.
  - by apply synced_iff_dom.
  - unfold cpuReservationAdmissible in *. by rewrite Hname.
  - intros name disk Hold Hnew. congruence.
  - intros name disk newDisk Hold Hnew. right. congruence.
Qed.

(** ** Further properties: the order of the rules and the error categories *)

Lemma M_eta {A} (m : M A) es o : events m = es → outcome m = o → m = Step es o.
Proof. destruct m. simpl. by intros -> ->. Qed.

Lemma events_Update ds lib oldNode newNode :
  ¬ removesOnlyLonghornFinalizer oldNode newNode →
  events (Update ds lib (NodeObject oldNode) (NodeObject newNode)) =
  events (updateRules ds lib oldNode newNode).
Proof.
  intros Hfin. unfold Update, IsRemovingLonghornFinalizer, mbind, M_bind. simpl.
  by rewrite bool_decide_eq_false_2.
Qed.

Lemma outcome_Update ds lib oldNode newNode :
  ¬ removesOnlyLonghornFinalizer oldNode newNode →
  outcome (Update ds lib (NodeObject oldNode) (NodeObject newNode)) =
  outcome (updateRules ds lib oldNode newNode).
Proof.
  intros Hfin. unfold Update, IsRemovingLonghornFinalizer, mbind, M_bind. simpl.
  by rewrite bool_decide_eq_false_2.
Qed.

(** When a rule before the CPU reservation check returns, nothing has been
    read or logged. *)
Lemma Update_returns_before_reading ds lib oldNode newNode v :
  ¬ removesOnlyLonghornFinalizer oldNode newNode →
  outcome (rulesBeforeCPUReservation lib oldNode newNode) = inl v →
  Update ds lib (NodeObject oldNode) (NodeObject newNode) = Step [] (inl v).
Proof.
  intros Hfin Hv. apply M_eta.
  - rewrite events_Update by done. unfold updateRules.
    by rewrite events_bind, Hv, events_rulesBeforeCPUReservation.
  - rewrite outcome_Update by done. by apply outcome_bind_returns.
Qed.

(** X7. The four rules that need no read come first and in a fixed order:
    sign of the CPU request, node-level eviction, disk sync, node tags.  When
    one of them fails, an update that is not a pure finalizer removal ends in
    its error without any read and without any log line. *)
Theorem Update_in_memory_rules_first ds lib oldNode newNode :
  ¬ removesOnlyLonghornFinalizer oldNode newNode →
  let request := NodeSpec.InstanceManagerCPURequest (Node.Spec newNode) in
  let evicting :=
    NodeSpec.EvictionRequested (Node.Spec newNode)
    && NodeSpec.AllowScheduling (Node.Spec newNode) in
  let update := Update ds lib (NodeObject oldNode) (NodeObject newNode) in
  (request < 0 → update = Step [] (inl (NewInvalidError NegativeCPURequest))) ∧
  (0 ≤ request → evicting = true →
   update = Step [] (inl (NewInvalidError
                            (NodeEvictionNeedsSchedulingDisabled (Node.Name oldNode))))) ∧
  (0 ≤ request → evicting = false → isNodeDiskSpecAndStatusSynced oldNode = false →
   update = Step [] (inl (NewForbiddenError (DisksBeingSynced (Node.Name oldNode))))) ∧
  (∀ err, 0 ≤ request → evicting = false → isNodeDiskSpecAndStatusSynced oldNode = true →
          ValidateTags lib (NodeSpec.Tags (Node.Spec newNode)) = Err err →
          update = Step [] (inl (NewInvalidError (NodeTagsInvalid err)))).
Proof.
  intros Hfin request evicting update. subst request evicting update.
  split_and!.
  - intros Hcpu. apply Update_returns_before_reading; [done|].
    unfold_rules. rewrite outcome_bind. simpl. by rewrite bool_decide_eq_true_2.
  - intros Hcpu Hev. apply Update_returns_before_reading; [done|].
    unfold_rules. rewrite !outcome_bind. simpl.
    rewrite bool_decide_eq_false_2 by lia. simpl. by rewrite Hev.
  - intros Hcpu Hev Hsync. apply Update_returns_before_reading; [done|].
    unfold_rules. rewrite !outcome_bind. simpl.
    rewrite bool_decide_eq_false_2 by lia. simpl. by rewrite Hev, Hsync.
  - intros err Hcpu Hev Hsync Htags. apply Update_returns_before_reading; [done|].
    unfold_rules. rewrite !outcome_bind. simpl.
    rewrite bool_decide_eq_false_2 by lia. simpl. by rewrite Hev, Hsync, Htags.
Qed.

Ltac category_auto :=
  repeat first [returns_step | progress cbv zeta];
  intros; unfold NewInvalidError, NewForbiddenError in *;
  repeat match goal with
         | H : Reject _ = Reject _ |- _ => injection H as <-
         | H : Accept = Reject _ |- _ => discriminate H
         | H : NilDereference = Reject _ |- _ => discriminate H
         end;
  simpl in *; try done.

Lemma updateRules_forbidden ds lib oldNode newNode e :
  verdict (updateRules ds lib oldNode newNode) = Reject e →
  category e = Forbidden →
  isNodeDiskSpecAndStatusSynced oldNode = false ∧
  reason e = DisksBeingSynced (Node.Name oldNode).
Proof.
  revert e. apply (verdict_returnsOnly (λ v, ∀ e, v = Reject e → category e = Forbidden → _)).
  unfold updateRules. unfold_rules. category_auto.
  split; [|done]. by apply negb_true_iff.
Qed.

(** X8. The forbidden category, on which a caller retries, is only used for
    disks that are not in sync: an error of [Update] in that category is the
    one of line 113 and the stored node is not in sync.  Every error of
    [Create] and of [Delete] is in the invalid category. *)
Theorem Forbidden_only_for_unsynced_disks ds lib :
  (∀ oldObj newObj e,
     verdict (Update ds lib oldObj newObj) = Reject e →
     category e = Forbidden →
     ∃ oldNode,
       oldObj = NodeObject oldNode ∧
       isNodeDiskSpecAndStatusSynced oldNode = false ∧
       reason e = DisksBeingSynced (Node.Name oldNode)) ∧
  (∀ newObj e, verdict (Create ds newObj) = Reject e → category e = Invalid) ∧
  (∀ obj e, verdict (Delete ds obj) = Reject e → category e = Invalid).
Proof.
  split_and!.
  - intros oldObj newObj e Hv Hc.
    destruct oldObj as [oldNode|p]; [destruct newObj as [newNode|p]|].
    + rewrite verdict_Update in Hv. case_bool_decide; [discriminate|].
      exists oldNode. split; [done|]. by eapply updateRules_forbidden.
    + vm_compute in Hv. injection Hv as <-. discriminate.
    + vm_compute in Hv. injection Hv as <-. discriminate.
  - intros newObj e. revert e.
    apply (verdict_returnsOnly (λ v, ∀ e, v = Reject e → category e = Invalid)).
    unfold Create, createDisk, assertNode. category_auto.
  - intros obj e. revert e.
    apply (verdict_returnsOnly (λ v, ∀ e, v = Reject e → category e = Invalid)).
    unfold Delete, assertNode. category_auto.
Qed.

Lemma Create_accepts_or_rejects ds newObj :
  verdict (Create ds newObj) = Accept ∨ rejected (verdict (Create ds newObj)).
Proof.
  apply (verdict_returnsOnly (λ v, v = Accept ∨ rejected v)).
  unfold Create, createDisk, assertNode. repeat returns_step; auto.
Qed.

(** X9. A disk that is not a block device must not name a disk driver,
    whatever the v2 data engine flag says and whether or not it can be read:
    [Create] rejects a node with such a disk, and so does every [Update]
    that is not a pure finalizer removal. *)
Theorem disk_driver_requires_block_device ds lib oldNode newNode name disk :
  NodeSpec.Disks (Node.Spec newNode) !! name = Some disk →
  DiskSpec.Type' disk ≠ DiskTypeBlock →
  DiskSpec.DiskDriver disk ≠ DiskDriverNone →
  rejected (verdict (Create ds (NodeObject newNode))) ∧
  (¬ removesOnlyLonghornFinalizer oldNode newNode →
   rejected (verdict (Update ds lib (NodeObject oldNode) (NodeObject newNode)))).
Proof.
  intros Hd Htype Hdriver. split.
  - destruct (Create_accepts_or_rejects ds (NodeObject newNode)) as [Hacc|Hrej]; [|done].
    apply Create_accepts in Hacc as (_ & b & _ & Hall).
    destruct (Hall name disk Hd) as [_ Hnone]. by destruct Hdriver, Hnone.
  - intros Hfin. rewrite verdict_Update, bool_decide_eq_false_2 by done.
    destruct (updateRules_verdict ds lib oldNode newNode) as [[Hacc _]|[Hrej _]]; [|done].
    apply updateRules_accepts in Hacc as (_ & _ & _ & _ & _ & _ & (b & _ & Hall) & _).
    destruct (Hall name disk Hd) as (_ & _ & _ & _ & Hnone). by destruct Hdriver, Hnone.
Qed.

(** ** Further properties: the CPU reservation check *)

(** X10. Once the sign check has passed, a nonzero CPU request is validated
    as the percentage computed from the request and the allocatable CPU of
    the Kubernetes node.  The guaranteed-CPU setting must be readable, but its
    value is never the one validated. *)
Theorem validateCPUReservation_validates_request ds lib oldNode newNode kubeNode :
  passes (validateCPURequest newNode) →
  NodeSpec.InstanceManagerCPURequest (Node.Spec newNode) ≠ 0 →
  GetKubernetesNodeRO ds (Node.Name oldNode) = Ok kubeNode →
  outcome (validateCPUReservation ds lib oldNode newNode) =
    match GetSettingWithAutoFillingRO ds SettingNameGuaranteedInstanceManagerCPU with
    | Err err => inl (NewInvalidError (GetCPUSettingFailed err))
    | Ok _ =>
        match ValidateCPUReservationValues lib SettingNameGuaranteedInstanceManagerCPU
                (FormatCPUPercentage lib
                   (NodeSpec.InstanceManagerCPURequest (Node.Spec newNode))
                   (AllocatableCPUMilliValue kubeNode)) with
        | Some err => inl (NewInvalidError (CPUReservationInvalid err))
        | None => inr tt
        end
    end.
Proof.
  intros Hsign%passes_validateCPURequest Hreq Hget.
  apply validateCPUReservation_node_found; [lia | done].
Qed.

(** X11. When the read of the Kubernetes node fails for another reason than
    the node being gone, an update that has reached the CPU reservation check
    with a nonzero request ends in the error of that read; the read is the
    only event of the call. *)
Theorem Update_kubernetes_node_read_failure ds lib oldNode newNode err :
  ¬ removesOnlyLonghornFinalizer oldNode newNode →
  passes (rulesBeforeCPUReservation lib oldNode newNode) →
  NodeSpec.InstanceManagerCPURequest (Node.Spec newNode) ≠ 0 →
  GetKubernetesNodeRO ds (Node.Name oldNode) = Err err →
  ErrorIsNotFound err = false →
  Update ds lib (NodeObject oldNode) (NodeObject newNode) =
    Step [CallGetKubernetesNodeRO (Node.Name oldNode)]
         (inl (NewInvalidError (GetKubernetesNodeFailed err))).
Proof.
  intros Hfin Hpre Hreq Hget Hnf.
  pose proof (validateCPUReservation_read_failed ds lib oldNode newNode err Hreq Hget Hnf)
    as Hcpu.
  apply M_eta.
  - rewrite events_Update by done. unfold updateRules.
    rewrite events_bind, Hpre, events_rulesBeforeCPUReservation, events_bind.
    by rewrite Hcpu.
  - rewrite outcome_Update by done. unfold updateRules.
    rewrite (outcome_bind_passes _ _ Hpre). apply outcome_bind_returns. by rewrite Hcpu.
Qed.

(** ** Further properties: what is read, and in which order *)

Lemma reads_bind {A B} (m : M A) (f : A → M B) l1 l2 :
  reads m `sublist_of` l1 →
  (∀ a, reads (f a) `sublist_of` l2) →
  reads (m ≫= f) `sublist_of` l1 ++ l2.
Proof.
  unfold reads. intros Hm Hf. rewrite events_bind.
  destruct (outcome m) as [v|a].
  - by apply sublist_inserts_r.
  - rewrite filter_app. by apply sublist_app.
Qed.

Lemma reads_silent {A} (m : M A) l : events m = [] → reads m `sublist_of` l.
Proof. unfold reads. intros ->. apply sublist_nil_l. Qed.

Lemma reads_forEach {A} (l : list A) (body : A → M unit) :
  (∀ x, reads (body x) `sublist_of` []) → reads (forEach l body) `sublist_of` [].
Proof.
  intros H. induction l as [|x l IH]; simpl.
  - by apply reads_silent.
  - by apply (reads_bind _ _ [] []).
Qed.

Lemma reads_deleteDisk oldNode newNode name disk :
  reads (deleteDisk oldNode newNode name disk) `sublist_of` [].
Proof.
  unfold deleteDisk, reads, mbind, M_bind.
  destruct (NodeSpec.Disks (Node.Spec newNode) !! name); [done|].
  destruct (DiskSpec.AllowScheduling disk); simpl; [done|].
  destruct (NodeStatus.DiskStatus (Node.Status oldNode) !! name); simpl; [|done].
  by case_bool_decide.
Qed.

Lemma reads_validateCPUReservation ds lib oldNode newNode :
  reads (validateCPUReservation ds lib oldNode newNode) `sublist_of`
    [CallGetKubernetesNodeRO (Node.Name oldNode);
     CallGetSettingWithAutoFillingRO SettingNameGuaranteedInstanceManagerCPU].
Proof.
  unfold validateCPUReservation, reads, mbind, M_bind.
  case_bool_decide; simpl; [|apply sublist_nil_l].
  destruct (GetKubernetesNodeRO ds (Node.Name oldNode)) as [kubeNode|err]; simpl.
  - destruct (GetSettingWithAutoFillingRO ds SettingNameGuaranteedInstanceManagerCPU);
      simpl; [|done].
    by destruct (ValidateCPUReservationValues _ _ _).
  - destruct (ErrorIsNotFound err); simpl; by repeat constructor.
Qed.

Lemma reads_validateCPUReservation_no_request ds lib oldNode newNode :
  NodeSpec.InstanceManagerCPURequest (Node.Spec newNode) = 0 →
  reads (validateCPUReservation ds lib oldNode newNode) `sublist_of` [].
Proof.
  intros Hz. unfold validateCPUReservation.
  by rewrite bool_decide_eq_false_2 by (by intros []).
Qed.

Lemma reads_rulesAfterCPUReservation ds lib oldNode newNode :
  reads (rulesAfterCPUReservation ds lib oldNode newNode) `sublist_of`
    [CallGetSettingAsBool SettingNameV2DataEngine].
Proof.
  unfold rulesAfterCPUReservation.
  apply (reads_bind _ _ [] _); [apply reads_silent, events_validateSpecName|]. intros _.
  apply (reads_bind _ _ [] _); [apply reads_silent, events_validateDiskEviction|]. intros _.
  apply (reads_bind _ _ [CallGetSettingAsBool SettingNameV2DataEngine] []).
  - unfold validateDisks.
    apply (reads_bind _ _ [CallGetSettingAsBool SettingNameV2DataEngine] []); [done|].
    intros r. apply (reads_bind _ _ [] []); [by destruct r|]. intros b.
    apply reads_silent, events_silent_range. intros k x. apply events_updateDisk.
  - intros _. apply (reads_bind _ _ [] []).
    + apply reads_forEach. intros [k x]. apply reads_deleteDisk.
    + intros _. apply reads_silent, events_validateDiskTypeChange.
Qed.

Lemma reads_updateRules ds lib oldNode newNode l :
  reads (validateCPUReservation ds lib oldNode newNode) `sublist_of` l →
  reads (updateRules ds lib oldNode newNode) `sublist_of`
    l ++ [CallGetSettingAsBool SettingNameV2DataEngine].
Proof.
  intros Hcpu. unfold updateRules.
  apply (reads_bind _ _ [] _); [apply reads_silent, events_rulesBeforeCPUReservation|].
  intros _. apply reads_bind; [done|]. intros _.
  rewrite <- (app_nil_r [CallGetSettingAsBool SettingNameV2DataEngine]).
  apply reads_bind; [apply reads_rulesAfterCPUReservation|]. intros _. done.
Qed.

Lemma reads_Update ds lib oldNode newObj l :
  (∀ newNode, newObj = NodeObject newNode →
              reads (validateCPUReservation ds lib oldNode newNode) `sublist_of` l) →
  reads (Update ds lib (NodeObject oldNode) newObj) `sublist_of`
    l ++ [CallGetSettingAsBool SettingNameV2DataEngine].
Proof.
  intros Hcpu. destruct newObj as [newNode|p]; [|apply sublist_nil_l].
  destruct (decide (removesOnlyLonghornFinalizer oldNode newNode)) as [Hfin|Hfin].
  - unfold reads, Update, IsRemovingLonghornFinalizer, mbind, M_bind. simpl.
    rewrite bool_decide_eq_true_2 by done. apply sublist_nil_l.
  - unfold reads. rewrite events_Update by done. by apply reads_updateRules, Hcpu.
Qed.

(** X12. [Update] reads the datastore at most three times, each read at most
    once and in this order: the Kubernetes node of the stored node, the
    guaranteed-CPU setting, the v2 data engine flag.  It never lists replicas
    or engines. *)
Theorem Update_reads ds lib oldNode newObj :
  reads (Update ds lib (NodeObject oldNode) newObj) `sublist_of`
    [CallGetKubernetesNodeRO (Node.Name oldNode);
     CallGetSettingWithAutoFillingRO SettingNameGuaranteedInstanceManagerCPU;
     CallGetSettingAsBool SettingNameV2DataEngine].
Proof.
  apply (reads_Update ds lib oldNode newObj
           [CallGetKubernetesNodeRO (Node.Name oldNode);
            CallGetSettingWithAutoFillingRO SettingNameGuaranteedInstanceManagerCPU]).
  intros newNode _. apply reads_validateCPUReservation.
Qed.

(** X13. An update without a CPU request reads neither the Kubernetes node
    nor the guaranteed-CPU setting: the v2 data engine flag is the only thing
    it can read. *)
Theorem Update_reads_without_cpu_request ds lib oldNode newNode :
  NodeSpec.InstanceManagerCPURequest (Node.Spec newNode) = 0 →
  reads (Update ds lib (NodeObject oldNode) (NodeObject newNode)) `sublist_of`
    [CallGetSettingAsBool SettingNameV2DataEngine].
Proof.
  intros Hz. apply (reads_Update ds lib oldNode (NodeObject newNode) []).
  intros newNode' [= <-]. by apply reads_validateCPUReservation_no_request.
Qed.

(** ** Further properties: Delete *)

Lemma Delete_not_uninstalling node :
  ¬ hasUninstallMarker node →
  match Node.Annotations node with
  | Some annotations =>
      bool_decide (is_Some (annotations !! GetLonghornLabelKey DeleteNodeFromLonghorn))
  | None => false
  end = false.
Proof.
  intros Hmark. destruct (Node.Annotations node) as [a|] eqn:Ha; [|done].
  apply bool_decide_eq_false. intros Hk. apply Hmark. by exists a.
Qed.

(** X14. Without the uninstall marker, a failed listing ends [Delete] in an
    error whatever the state of the node: when the replicas cannot be listed
    the engines are not read at all, and when the engines cannot be listed
    the replicas have been read first. *)
Theorem Delete_listing_failure ds node :
  ¬ hasUninstallMarker node →
  (∀ err,
     ListReplicasByNodeRO ds (Node.Name node) = Err err →
     Delete ds (NodeObject node) =
       Step [CallListReplicasByNodeRO (Node.Name node)]
            (inl (NewInvalidError (ListReplicasFailed (Node.Name node) err)))) ∧
  (∀ replicas err,
     ListReplicasByNodeRO ds (Node.Name node) = Ok replicas →
     ListEnginesByNodeRO ds (Node.Name node) = Err err →
     Delete ds (NodeObject node) =
       Step [CallListReplicasByNodeRO (Node.Name node);
             CallListEnginesByNodeRO (Node.Name node)]
            (inl (NewInvalidError (ListEnginesFailed (Node.Name node) err)))).
Proof.
  intros Hmark%Delete_not_uninstalling. split.
  - intros err Hr. unfold Delete, mbind, M_bind. simpl. by rewrite Hmark, Hr.
  - intros replicas err Hr He. unfold Delete, mbind, M_bind. simpl.
    by rewrite Hmark, Hr, He.
Qed.

(** ** Further properties: the Info line of the disk removal rule *)

Lemma infoLogAgrees_bind {A B} (m : M A) (f : A → M B) :
  infoLogAgrees m → (∀ a, infoLogAgrees (f a)) → infoLogAgrees (m ≫= f).
Proof.
  unfold infoLogAgrees. intros Hm Hf. rewrite events_bind, outcome_bind.
  destruct (outcome m) as [v|a] eqn:Ho; simpl.
  { split.
    - intros (name & path & [= ->])%Hm. eauto.
    - intros (name & path & [= ->]). apply Hm. eauto. }
  rewrite <- Hf. split.
  - intros [line [Hin|Hin]%elem_of_app]; [|by eauto].
    destruct (proj1 Hm) as (? & ? & [=]). eauto.
  - intros [line Hin]. exists line. apply elem_of_app. by right.
Qed.

Lemma infoLogAgrees_silent {A} (m : M A) :
  events m = [] →
  (∀ name path, outcome m ≠ inl (NewInvalidError (DeleteDiskNotAllowed name path))) →
  infoLogAgrees m.
Proof.
  unfold infoLogAgrees. intros He Ho. rewrite He. split.
  - intros [line Hin]. by apply elem_of_nil in Hin.
  - intros (name & path & Hv). by destruct (Ho name path).
Qed.

Lemma infoLogAgrees_read {A} e (r : result A) :
  (∀ line, e ≠ Infof line) → infoLogAgrees (read e r).
Proof.
  unfold infoLogAgrees. intros He. simpl. split.
  - intros [line [= <-]%list_elem_of_singleton]. by destruct (He line).
  - intros (? & ? & [=]).
Qed.

Lemma infoLogAgrees_emit e :
  (∀ line, e ≠ Infof line) → infoLogAgrees (emit e).
Proof.
  unfold infoLogAgrees. intros He. simpl. split.
  - intros [line [= <-]%list_elem_of_singleton]. by destruct (He line).
  - intros (? & ? & [=]).
Qed.

Lemma infoLogAgrees_delete line name path :
  infoLogAgrees
    (emit (Infof line) ;;
     (return_ (NewInvalidError (DeleteDiskNotAllowed name path)) : M unit)).
Proof.
  unfold infoLogAgrees. simpl. split.
  - intros _. eauto.
  - intros _. exists line. by apply list_elem_of_singleton.
Qed.

Lemma infoLogAgrees_forEach {A} (l : list A) (body : A → M unit) :
  (∀ x, infoLogAgrees (body x)) → infoLogAgrees (forEach l body).
Proof.
  intros H. induction l as [|x l IH]; simpl.
  - by apply infoLogAgrees_silent.
  - by apply infoLogAgrees_bind.
Qed.

Ltac info_step :=
  lazymatch goal with
  | |- infoLogAgrees (emit (Infof _) ≫= _) => apply infoLogAgrees_delete
  | |- infoLogAgrees (_ ≫= _) => apply infoLogAgrees_bind; [|intros ?]
  | |- infoLogAgrees (range _ _) => apply infoLogAgrees_forEach; intros [? ?]
  | |- infoLogAgrees (read _ _) => apply infoLogAgrees_read; intros ?; discriminate
  | |- infoLogAgrees (emit _) => apply infoLogAgrees_emit; intros ?; discriminate
  | |- infoLogAgrees (match ?x with _ => _ end) => destruct x
  | |- infoLogAgrees _ =>
      apply infoLogAgrees_silent;
      [first [reflexivity | apply events_returnIf]
      | intros ? ?; unfold returnIf, NewInvalidError, NewForbiddenError;
        try match goal with |- context [if ?c then _ else _] => destruct c end;
        simpl; congruence]
  end.

Lemma infoLogAgrees_updateRules ds lib oldNode newNode :
  infoLogAgrees (updateRules ds lib oldNode newNode).
Proof. unfold updateRules. unfold_rules. repeat info_step. Qed.

(** X15. The Info line about a disk that cannot be removed is logged by
    [Update] exactly when the call ends in the error of the disk removal
    rule: that rejection is always logged, and nothing else is logged at the
    Info level. *)
Theorem Update_info_log_iff_disk_removal_rejected ds lib oldObj newObj :
  (∃ line, Infof line ∈ events (Update ds lib oldObj newObj)) ↔
  (∃ name path,
     verdict (Update ds lib oldObj newObj)
     = NewInvalidError (DeleteDiskNotAllowed name path)).
Proof.
  assert (infoLogAgrees (Update ds lib oldObj newObj)) as Hagree.
  { unfold Update, IsRemovingLonghornFinalizer, assertNode.
    repeat info_step. apply infoLogAgrees_updateRules. }
  unfold infoLogAgrees in Hagree. rewrite Hagree.
  by setoid_rewrite verdict_outcome.
Qed.

(** X16. [Delete] logs nothing and reads nothing but the two listings, the
    replicas before the engines and each at most once. *)
Theorem Delete_events ds node :
  events (Delete ds (NodeObject node)) `sublist_of`
    [CallListReplicasByNodeRO (Node.Name node); CallListEnginesByNodeRO (Node.Name node)].
Proof.
  unfold Delete, mbind, M_bind. simpl.
  destruct (match Node.Annotations node with Some _ => _ | None => _ end); simpl;
    [apply sublist_nil_l|].
  destruct (ListReplicasByNodeRO ds (Node.Name node)) as [replicas|err]; simpl;
    [|by repeat constructor].
  destruct (ListEnginesByNodeRO ds (Node.Name node)) as [engines|err]; simpl; [|done].
  by destruct (_ || _).
Qed.

(** ** The further properties on sample requests *)

Lemma Update_accepts_iff_witness :
  verdict (Update (Samples.datastore false "12" 0) Samples.library
             (NodeObject (Samples.worker 0)) (NodeObject (Samples.worker 0))) = Accept ↔
  updateAcceptable (Samples.datastore false "12" 0) Samples.library
    (Samples.worker 0) (Samples.worker 0).
Proof.
  apply (Update_accepts_iff (Samples.datastore false "12" 0) Samples.library
           (Samples.worker 0) (Samples.worker 0)).
  apply worker_not_finalizer_removal.
Defined.

Lemma Update_accepted_then_Create_accepted_witness :
  verdict (Create (Samples.datastore true "12" 0) (NodeObject Samples.blockWorker)) = Accept.
Proof.
  apply (Update_accepted_then_Create_accepted (Samples.datastore true "12" 0)
           Samples.library Samples.blockWorker Samples.blockWorker).
  - apply worker_not_finalizer_removal.
  - reflexivity.
Defined.

Lemma Update_resubmission_witness :
  verdict (Update (Samples.datastore false "12" 0) Samples.library
             (NodeObject (Samples.worker 100)) (NodeObject (Samples.worker 100))) = Accept.
Proof.
  apply (Update_accepted_then_resubmission_accepted (Samples.datastore false "12" 0)
           Samples.library (Samples.worker 0) (Samples.worker 100)).
  - apply worker_not_finalizer_removal.
  - reflexivity.
  - reflexivity.
  - reflexivity.
Defined.

Lemma Update_in_memory_rules_witness :
  Update (Samples.datastore false "12" 0) Samples.library
    (NodeObject (Samples.worker 0)) (NodeObject (Samples.worker (-1))) =
  Step [] (inl (NewInvalidError NegativeCPURequest)).
Proof.
  pose proof (Update_in_memory_rules_first (Samples.datastore false "12" 0)
                Samples.library (Samples.worker 0) (Samples.worker (-1))
                (worker_not_finalizer_removal _ _ _ _ _ _)) as H.
  simpl in H. destruct H as [H _]. apply H. lia.
Defined.

Lemma disk_driver_witness :
  rejected (verdict (Create (Samples.datastore true "12" 0)
                       (NodeObject Failures.drivenWorker))) ∧
  (¬ removesOnlyLonghornFinalizer (Samples.worker 0) Failures.drivenWorker →
   rejected (verdict (Update (Samples.datastore true "12" 0) Samples.library
                        (NodeObject (Samples.worker 0))
                        (NodeObject Failures.drivenWorker)))).
Proof.
  apply (disk_driver_requires_block_device (Samples.datastore true "12" 0)
           Samples.library (Samples.worker 0) Failures.drivenWorker "disk-1"
           Failures.drivenDisk).
  - reflexivity.
  - discriminate.
  - discriminate.
Defined.

Lemma validateCPUReservation_validates_request_witness :
  outcome (validateCPUReservation (Samples.datastoreWithNode false) Samples.library
             (Samples.worker 100) (Samples.worker 100)) = inr tt.
Proof.
  apply (validateCPUReservation_validates_request (Samples.datastoreWithNode false)
           Samples.library (Samples.worker 100) (Samples.worker 100)
           {| AllocatableCPUMilliValue := 8000 |}).
  - reflexivity.
  - discriminate.
  - reflexivity.
Defined.

Lemma Update_kubernetes_node_read_failure_witness :
  Update Failures.kubernetesNode Samples.library
    (NodeObject (Samples.worker 100)) (NodeObject (Samples.worker 100)) =
  Step [CallGetKubernetesNodeRO "worker-1"]
       (inl (NewInvalidError (GetKubernetesNodeFailed Failures.unavailable))).
Proof.
  apply (Update_kubernetes_node_read_failure Failures.kubernetesNode Samples.library
           (Samples.worker 100) (Samples.worker 100) Failures.unavailable).
  - apply worker_not_finalizer_removal.
  - reflexivity.
  - discriminate.
  - reflexivity.
  - reflexivity.
Defined.

Lemma Update_reads_without_cpu_request_witness :
  reads (Update (Samples.datastoreWithNode false) Samples.library
           (NodeObject (Samples.worker 0)) (NodeObject (Samples.worker 0)))
    `sublist_of` [CallGetSettingAsBool SettingNameV2DataEngine].
Proof.
  apply (Update_reads_without_cpu_request (Samples.datastoreWithNode false)
           Samples.library (Samples.worker 0) (Samples.worker 0)).
  reflexivity.
Defined.

Lemma Delete_listing_failure_witness :
  Delete Failures.replicaListing (NodeObject Samples.goneWorker) =
  Step [CallListReplicasByNodeRO "worker-1"]
       (inl (NewInvalidError (ListReplicasFailed "worker-1" Failures.unavailable))).
Proof.
  apply (Delete_listing_failure Failures.replicaListing Samples.goneWorker).
  - intros (a & [=] & _).
  - reflexivity.
Defined.

(** The node below is ready to be removed, yet its deletion is refused
    because the engines cannot be listed; the update of a node with a driven
    filesystem disk is refused after the flag has been read. *)
Example Delete_engine_listing_fails :
  Delete Failures.engineListing (NodeObject Samples.goneWorker) =
  Step [CallListReplicasByNodeRO "worker-1"; CallListEnginesByNodeRO "worker-1"]
       (inl (NewInvalidError (ListEnginesFailed "worker-1" Failures.unavailable))).
Proof. reflexivity. Qed.

Example Update_driven_disk :
  Update (Samples.datastore true "12" 0) Samples.library
    (NodeObject (Samples.worker 0)) (NodeObject Failures.drivenWorker) =
  Step [CallGetSettingAsBool SettingNameV2DataEngine]
       (inl (NewInvalidError (DiskDriverNotSupported "disk-1" DiskTypeFilesystem))).
Proof. reflexivity. Qed.
